(** * DataFinder: folder registry and positional-regex query engine

    A shallow embedding of [src/datafinder/datafinder.py] (class
    [DataFinder]: [set_root], [add_folders], [query]) and the properties the
    specification states about it.

    The Python object is a record holding the attributes [root] and
    [folders]; a method is a computation in a state-and-exception monad over
    that record and the lines printed so far.  The library calls the methods
    make ([Path.is_dir], [Path.rglob], [re.match], the sort inside
    [DataFrame.sort_values]) are the fields of the class [Platform]. *)

From Stdlib Require Import Ascii String ZArith Lia Permutation Sorted.
From stdpp Require Import base option list strings gmap sorting.

#[local] Open Scope Z_scope.
#[local] Open Scope string_scope.
#[local] Open Scope list_scope.

(** ** Paths (pathlib.PurePosixPath) *)

(** A path is its anchor (is it rooted at "/") and its segments.  [Path(".")]
    is the relative path without segments. *)
Record Path := mkPath { absolute : bool; segs : list string }.

#[export] Instance Path_eq_dec : EqDecision Path.
Proof. solve_decision. Defined.

(** [Path.parts]: the anchor, when there is one, counts as the first part. *)
Definition parts (p : Path) : list string :=
  (if absolute p then ["/"] else []) ++ segs p.

(** [Path.is_absolute()] *)
Definition is_absolute (p : Path) : bool := absolute p.

(** [a / b]: an absolute right operand replaces the left one. *)
Definition truediv (a b : Path) : Path :=
  if absolute b then b else mkPath (absolute a) (segs a ++ segs b).

(** [Path.name]: the last segment, empty when there is none. *)
Definition name (p : Path) : string := List.last (segs p) "".

(** [str.rfind(".")] as the length of the text before the last dot. *)
Fixpoint rfind_dot (s : string) : option nat :=
  match s with
  | EmptyString => None
  | String c s' =>
      match rfind_dot s' with
      | Some i => Some (S i)
      | None => if Ascii.eqb c "."%char then Some 0%nat else None
      end
  end.

(** [Path.suffix]: the text from the last dot of the name, unless that dot
    starts or ends the name. *)
Definition suffix (p : Path) : string :=
  let n := name p in
  match rfind_dot n with
  | Some i =>
      if ((0 <? i)%nat && (i <? String.length n - 1)%nat)%bool
      then String.substring i (String.length n - i) n
      else ""
  | None => ""
  end.

(** [l1] is an initial part of [l2]. *)
Fixpoint is_prefix (l1 l2 : list string) : bool :=
  match l1, l2 with
  | [], _ => true
  | x :: l1', y :: l2' => bool_decide (x = y) && is_prefix l1' l2'
  | _ :: _, [] => false
  end.

(** [Path.is_relative_to(other)] *)
Definition is_relative_to (p other : Path) : bool :=
  bool_decide (absolute p = absolute other) && is_prefix (segs other) (segs p).

(** ** Exceptions and results *)

Inductive Exn :=
  | ValueError | TypeError | AttributeError | ZeroDivisionError
  | PatternError | OSError.

#[export] Instance Exn_eq_dec : EqDecision Exn.
Proof. solve_decision. Defined.

Inductive Res (A : Type) :=
  | Ret (a : A)
  | Raise (e : Exn).
Arguments Ret {A} a.
Arguments Raise {A} e.

#[export] Instance Res_ret : MRet Res := @Ret.
#[export] Instance Res_bind : MBind Res := λ A B f r,
  match r with Ret a => f a | Raise e => Raise e end.

(** [Path.relative_to(other)]: the segments of [p] after those of [other];
    [ValueError] when [other] does not lead to [p]. *)
Definition relative_to (p other : Path) : Res Path :=
  if is_relative_to p other
  then Ret (mkPath false (drop (length (segs other)) (segs p)))
  else Raise ValueError.

(** ** Object state *)

(** What the attribute [root] can hold: a path, or (see [set_root]) the list
    of candidates that was passed in. *)
Inductive PyRoot :=
  | RPath (p : Path)
  | RList (candidates : list Path).

#[export] Instance PyRoot_eq_dec : EqDecision PyRoot.
Proof. solve_decision. Defined.

(** The attributes of a [DataFinder]; [root = None] is an attribute that was
    never assigned. *)
Record DataFinder := mkDataFinder {
  root : option PyRoot;
  folders : list Path
}.

#[export] Instance DataFinder_eq_dec : EqDecision DataFinder.
Proof. solve_decision. Defined.

(** Lines written by [print]. *)
Inductive Line :=
  | WarnSkipping (folder : Path)
  | Searching (query : string)
  | InRootFolder (r : PyRoot)
  | EnteringFolder (rel : Path)
  | FoundFile (rel : Path)
  | KeepingFile
  | MatchFound
  | NoMatchFound
  | NoFilesFound.

#[export] Instance Line_eq_dec : EqDecision Line.
Proof. solve_decision. Defined.

Record World := mkWorld { self : DataFinder; stdout : list Line }.

#[export] Instance World_eq_dec : EqDecision World.
Proof. solve_decision. Defined.

(** ** The monad of methods: state, output and exceptions

    An exception leaves the state as it was when it was raised. *)
Definition M (A : Type) : Type := World → Res A * World.

#[export] Instance M_ret : MRet M := λ A a w, (Ret a, w).
#[export] Instance M_bind : MBind M := λ A B f m w,
  match m w with
  | (Ret a, w') => f a w'
  | (Raise e, w') => (Raise e, w')
  end.

Definition raise {A} (e : Exn) : M A := λ w, (Raise e, w).
Definition lift {A} (r : Res A) : M A := λ w, (r, w).
Definition print (l : Line) : M unit :=
  λ w, (Ret tt, mkWorld (self w) (stdout w ++ [l])).
Definition get_folders : M (list Path) := λ w, (Ret (folders (self w)), w).
(** Reading [self.root]: [AttributeError] while it was never assigned. *)
Definition get_root : M PyRoot := λ w,
  match root (self w) with
  | Some r => (Ret r, w)
  | None => (Raise AttributeError, w)
  end.
Definition set_root_attr (r : PyRoot) : M unit :=
  λ w, (Ret tt, mkWorld (mkDataFinder (Some r) (folders (self w))) (stdout w)).
Definition append_folder (f : Path) : M unit :=
  λ w, (Ret tt, mkWorld (mkDataFinder (root (self w)) (folders (self w) ++ [f])) (stdout w)).
Definition set_folders_attr (fs : list Path) : M unit :=
  λ w, (Ret tt, mkWorld (mkDataFinder (root (self w)) fs) (stdout w)).

Definition when (b : bool) (m : M unit) : M unit := if b then m else mret tt.

(** [for x in l: body(x)] *)
Fixpoint for_each {A} (l : list A) (body : A → M unit) : M unit :=
  match l with
  | [] => mret tt
  | x :: l' => body x ;; for_each l' body
  end.

(** A loop that carries a local variable. *)
Fixpoint for_fold {A B} (l : list A) (body : A → B → M B) (acc : B) : M B :=
  match l with
  | [] => mret acc
  | x :: l' => acc' ← body x acc; for_fold l' body acc'
  end.

(** [self.root / folder] and [p.relative_to(self.root)]: a root that is a
    list is no path, both raise [TypeError]. *)
Definition root_truediv (r : PyRoot) (folder : Path) : Res Path :=
  match r with
  | RPath p => Ret (truediv p folder)
  | RList _ => Raise TypeError
  end.

Definition relative_to_root (p : Path) (r : PyRoot) : Res Path :=
  match r with
  | RPath rp => relative_to p rp
  | RList _ => Raise TypeError
  end.

(** ** Rows, regex entries and tables *)

(** The values a row holds: text, the file's path, or [None] (a named group
    that took no part in the match). *)
Inductive Val :=
  | VStr (s : string)
  | VPath (p : Path)
  | VNone.

#[export] Instance Val_eq_dec : EqDecision Val.
Proof. solve_decision. Defined.

(** A row is a Python dict: keys in insertion order, no key twice. *)
Abbreviation Row := (list (string * Val)).

(** [d[k] = v]: an existing key keeps its place. *)
Fixpoint dict_set (k : string) (v : Val) (d : Row) : Row :=
  match d with
  | [] => [(k, v)]
  | (k', v') :: d' =>
      if bool_decide (k = k') then (k, v) :: d' else (k', v') :: dict_set k v d'
  end.

(** [d.get(k)] *)
Fixpoint dict_get (k : string) (d : Row) : option Val :=
  match d with
  | [] => None
  | (k', v) :: d' => if bool_decide (k = k') then Some v else dict_get k d'
  end.

(** [d.update(items)] *)
Definition dict_update (d : Row) (items : Row) : Row :=
  foldl (λ acc kv, dict_set kv.1 kv.2 acc) d items.

(** A value of [regex_info]: one pattern, or a dict from label to pattern. *)
Inductive Entry :=
  | Pattern (regex : string)
  | Classifier (labels : list (string * string)).

#[export] Instance Entry_eq_dec : EqDecision Entry.
Proof. solve_decision. Defined.

(** What [re.match(regex, text)] gives: [re.error] for a malformed pattern,
    [None], or a match object, of which the code reads [groupdict()]. *)
Inductive MatchResult :=
  | ReError
  | NoMatch
  | Matched (groupdict : list (string * option string)).

Definition group_value (g : option string) : Val :=
  match g with Some s => VStr s | None => VNone end.

Definition groupdict_items (gd : list (string * option string)) : Row :=
  (λ kv, (kv.1, group_value kv.2)) <$> gd.

(** A [pandas.DataFrame]: column labels, row labels and the rows.  A row
    keeps the dict it was built from; a column it lacks reads as missing. *)
Record DataFrame := mkDataFrame {
  columns : list string;
  index : list nat;
  records : list Row
}.

(** [pd.DataFrame()] *)
Definition empty_frame : DataFrame := mkDataFrame [] [] [].

Definition add_column (cols : list string) (k : string) : list string :=
  if bool_decide (k ∈ cols) then cols else cols ++ [k].

(** Column labels of [pd.DataFrame(rows)]: the keys in order of first
    appearance. *)
Definition columns_of (rows : list Row) : list string :=
  foldl (λ cols row, foldl add_column cols (row.*1)) [] rows.

(** [pd.DataFrame(rows)] for a list of dicts: a fresh [0..n-1] index. *)
Definition frame_of_rows (rows : list Row) : DataFrame :=
  mkDataFrame (columns_of rows) (seq 0 (length rows)) rows.

(** The sort key of a row: its [filename] cell, [None] when missing. *)
Definition filename_key (row : Row) : option string :=
  match dict_get "filename" row with
  | Some (VStr s) => Some s
  | _ => None
  end.

(** Text order by code point; a missing key sorts last
    ([na_position="last"]). *)
Definition key_le (a b : option string) : Prop :=
  match a, b with
  | Some x, Some y => String.leb x y = true
  | _, None => True
  | None, Some _ => False
  end.

#[export] Instance key_le_dec : RelDecision key_le.
Proof. intros [x|] [y|]; simpl; try apply _. Defined.

(** [DataFrame.take(idx)] on a list of cells. *)
Definition gather {A} (idx : list nat) (l : list A) : list A :=
  omap (λ i, l !! i) idx.

(** [DataFrame.reset_index(drop=True)] *)
Definition reset_index (df : DataFrame) : DataFrame :=
  mkDataFrame (columns df) (seq 0 (length (records df))) (records df).

(** [i % n] on Python integers: the sign of the divisor, and
    [ZeroDivisionError] for [n = 0]. *)
Definition py_mod (i n : Z) : Res Z :=
  if (n =? 0)%Z then Raise ZeroDivisionError else Ret (i `mod` n).

(** ** The methods *)

(** The library calls of the methods, as an interface:
    - [is_dir p] is [Path.is_dir()] on the file system;
    - [rglob folder query] is [Path(folder).rglob(query)]: the paths the
      generator yields, and the exception that ends it when it does not run
      to its end;
    - [re_match regex text] is [re.match(regex, text)];
    - [argsort keys] is the indexer [DataFrame.sort_values] computes from the
      key column under the arguments the code leaves at their defaults
      (ascending, [kind="quicksort"], missing keys last). *)
Class Platform := {
  is_dir : Path → bool;
  rglob : Path → string → list Path * option Exn;
  re_match : string → string → MatchResult;
  argsort : list (option string) → list nat
}.

Section Engine.

Context `{Platform}.

(** [DataFinder.set_root] (lines 31-41). *)
Definition set_root (r : PyRoot) : M unit :=
  match r with
  | RList candidates =>
      let valid_roots := List.filter is_dir candidates in
      match valid_roots with
      | [] => raise ValueError
      | v :: _ => set_root_attr (RPath v)
      end
  | RPath p => if is_dir p then mret tt else raise ValueError
  end ;;
  set_root_attr r.

(** [DataFinder.add_folders] (lines 53-72); first the body of its loop. *)
Definition add_one (strict : bool) (folder : Path) : M unit :=
  folder ← (if is_absolute folder then mret folder
            else r ← get_root; lift (root_truediv r folder));
  if is_dir folder then append_folder folder
  else if strict then raise ValueError
  else print (WarnSkipping folder).

(** Lines 53-54: [if root is not None: self.set_root(root)]. *)
Definition maybe_set_root (root_arg : option PyRoot) : M unit :=
  match root_arg with
  | Some r => set_root r
  | None => mret tt
  end.

Definition add_folders (fs : list Path) (root_arg : option PyRoot)
    (strict : bool) : M unit :=
  maybe_set_root root_arg ;;
  for_each fs (add_one strict).

(** [DataFinder.__init__] (lines 18-19). *)
Definition init (fs : list Path) (root_arg : option PyRoot) : M unit :=
  set_folders_attr [] ;; add_folders fs root_arg false.

(** Lines 115-118: every (label, pattern) pair is tried. *)
Fixpoint classify (labels : list (string * string)) (part : string)
    (row : Row) : Res Row :=
  match labels with
  | [] => Ret row
  | (key, regex) :: rest =>
      match re_match regex part with
      | ReError => Raise PatternError
      | NoMatch => classify rest part row
      | Matched _ => classify rest part (dict_set "info" (VStr key) row)
      end
  end.

(** Lines 112-125: one position of the walk; the state is [(row, keep)]. *)
Definition at_position (regex_info_mod : gmap Z Entry) (require_match : bool)
    (i : Z) (part : string) (st : Row * bool) : Res (Row * bool) :=
  match regex_info_mod !! i with
  | None => Ret st
  | Some (Classifier labels) =>
      row ← classify labels part st.1; Ret (row, st.2)
  | Some (Pattern regex) =>
      match re_match regex part with
      | ReError => Raise PatternError
      | Matched gd => Ret (dict_update st.1 (groupdict_items gd), st.2)
      | NoMatch => Ret (st.1, if require_match then false else st.2)
      end
  end.

(** Line 110: [for i, part in enumerate(reversed(parts))], from [i]. *)
Fixpoint walk (regex_info_mod : gmap Z Entry) (require_match : bool)
    (i : Z) (rparts : list string) (st : Row * bool) : Res (Row * bool) :=
  match rparts with
  | [] => Ret st
  | part :: rest =>
      st' ← at_position regex_info_mod require_match i part st;
      walk regex_info_mod require_match (i + 1) rest st'
  end.

(** Line 109: [{i % len(parts): reg for (i, reg) in regex_info.items()}]. *)
Fixpoint regex_info_mod_from (acc : gmap Z Entry) (items : list (Z * Entry))
    (n : nat) : Res (gmap Z Entry) :=
  match items with
  | [] => Ret acc
  | (i, reg) :: rest =>
      k ← py_mod i (Z.of_nat n);
      regex_info_mod_from (<[k := reg]> acc) rest n
  end.

Definition regex_info_mod (regex_info : list (Z * Entry)) (n : nat)
    : Res (gmap Z Entry) :=
  regex_info_mod_from ∅ regex_info n.

(** Line 103 *)
Definition new_row (file : Path) : Row :=
  [("filename", VStr (name file)); ("path", VPath file);
   ("suffix", VStr (suffix file))].

(** Lines 107-125: the row of a file and whether it is kept. *)
Definition match_file (regex_info : list (Z * Entry)) (require_match : bool)
    (rel : Path) (row : Row) : Res (Row * bool) :=
  let ps := parts rel in
  m ← regex_info_mod regex_info (length ps);
  walk m require_match 0 (reverse ps) (row, true).

(** Lines 100-136: the body of the loop over files. *)
Definition process_file (regex_info : list (Z * Entry))
    (require_match verbose : bool) (file : Path) (rows : list Row)
    : M (list Row) :=
  when verbose (r ← get_root;
                rel ← lift (relative_to_root file r);
                print (FoundFile rel)) ;;
  r ← get_root;
  rel ← lift (relative_to_root file r);
  '(row, keep) ← lift (match_file regex_info require_match rel (new_row file));
  let rows' := if keep : bool then rows ++ [row] else rows in
  when verbose (when (negb keep && negb require_match) (print KeepingFile) ;;
                if keep then print MatchFound else print NoMatchFound) ;;
  mret rows'.

(** Lines 93-136: the body of the loop over folders. *)
Definition process_folder (q : string) (regex_info : list (Z * Entry))
    (require_match verbose : bool) (folder : Path) (rows : list Row)
    : M (list Row) :=
  when verbose (r ← get_root;
                rel ← lift (relative_to_root folder r);
                print (EnteringFolder rel)) ;;
  rows' ← for_fold (rglob folder q).1
            (process_file regex_info require_match verbose) rows;
  match (rglob folder q).2 with
  | Some e => raise e
  | None => mret rows'
  end.

(** Lines 85-136: the rows kept, in the order they were met. *)
Definition collect_rows (q : string) (regex_info : list (Z * Entry))
    (require_match verbose : bool) : M (list Row) :=
  when verbose (print (Searching q) ;;
                r ← get_root; print (InRootFolder r)) ;;
  fs ← get_folders;
  for_fold fs (process_folder q regex_info require_match verbose) [].

(** [DataFrame.sort_values(by="filename")]: rows and their labels are
    taken in the order of the indexer. *)
Definition sort_values (df : DataFrame) : DataFrame :=
  let idx := argsort (filename_key <$> records df) in
  mkDataFrame (columns df) (gather idx (index df)) (gather idx (records df)).

(** [DataFinder.query] (lines 85-145). *)
Definition query (q : string) (regex_info : list (Z * Entry))
    (require_match verbose : bool) : M DataFrame :=
  rows ← collect_rows q regex_info require_match verbose;
  match rows with
  | [] => when verbose (print NoFilesFound) ;; mret empty_frame
  | _ :: _ => mret (reset_index (sort_values (frame_of_rows rows)))
  end.

End Engine.

(** ** Notions the properties are stated with *)

Section Notions.

Context `{Platform}.

(** The candidates no root can be taken from: a single path that is no
    directory, a list without a directory. *)
Definition no_valid_root (r : PyRoot) : Prop :=
  match r with
  | RPath p => is_dir p = false
  | RList candidates => Forall (λ c, is_dir c = false) candidates
  end.

(** The path a folder argument stands for under the stored root [rt]. *)
Definition resolved (rt : option PyRoot) (folder : Path) : Res Path :=
  if is_absolute folder then Ret folder
  else match rt with
       | Some r => root_truediv r folder
       | None => Raise AttributeError
       end.

(** Does [regex] match [part] at its start. *)
Definition matches (regex part : string) : bool :=
  match re_match regex part with
  | Matched _ => true
  | _ => false
  end.

(** The labels of a classifier whose pattern matches [part], in mapping
    order; the first and the last of them. *)
Definition matching_labels (labels : list (string * string)) (part : string)
    : list string :=
  (List.filter (λ lp, matches lp.2 part) labels).*1.

Definition first_matching (labels : list (string * string)) (part : string)
    : option string :=
  head (matching_labels labels part).

Definition last_matching (labels : list (string * string)) (part : string)
    : option string :=
  last (matching_labels labels part).

(** The row a classifier position leaves when its label is [label]. *)
Definition with_info (label : option string) (row : Row) : Row :=
  match label with
  | Some l => dict_set "info" (VStr l) row
  | None => row
  end.

(** Position [i] holds a single pattern that does not match [part]. *)
Definition position_fails (m : gmap Z Entry) (i : Z) (part : string) : bool :=
  match m !! i with
  | Some (Pattern regex) =>
      match re_match regex part with
      | NoMatch => true
      | _ => false
      end
  | _ => false
  end.

(** Some position from [i] on fails. *)
Fixpoint any_failure (m : gmap Z Entry) (i : Z) (rparts : list string) : bool :=
  match rparts with
  | [] => false
  | part :: rest => position_fails m i part || any_failure m (i + 1) rest
  end.

(** The entry of [regex_info] in force at effective position [k] of a path
    with [n] segments: the last one, in iteration order, whose key is [k]
    modulo [n]. *)
Definition effective_entry (regex_info : list (Z * Entry)) (n : nat) (k : Z)
    : option Entry :=
  snd <$> List.find (λ e, bool_decide (e.1 `mod` Z.of_nat n = k))
                    (reverse regex_info).

(** What the code may rely on from the sort behind [sort_values]: the
    indexer is a rearrangement of the row numbers that puts the keys in
    non-decreasing order. *)
Definition argsort_sorts : Prop :=
  ∀ keys, argsort keys ≡ₚ seq 0 (length keys) ∧
          Sorted key_le (gather (argsort keys) keys).

End Notions.

(** Rows in non-decreasing order of their [filename]. *)
Definition by_filename (a b : Row) : Prop :=
  key_le (filename_key a) (filename_key b).

(** [out] keeps the rows of [kept] that share a [filename] in the order they
    have in [kept]. *)
Definition ties_in_order (kept out : list Row) : Prop :=
  ∀ k, List.filter (λ r, bool_decide (filename_key r = k)) out =
       List.filter (λ r, bool_decide (filename_key r = k)) kept.

(** A table that holds [kept] sorted by [filename] with a stable sort, under
    a fresh index. *)
Definition stably_sorted_table (kept : list Row) (df : DataFrame) : Prop :=
  records df ≡ₚ kept ∧ Sorted by_filename (records df) ∧
  ties_in_order kept (records df) ∧
  index df = seq 0 (length kept).

(** ** A small file system to run the methods on *)

(** Lookup in a table of answers. *)
Fixpoint assoc {K V} `{EqDecision K} (k : K) (tbl : list (K * V)) : option V :=
  match tbl with
  | [] => None
  | (k', v) :: tbl' => if bool_decide (k = k') then Some v else assoc k tbl'
  end.

(** Two sorts for the key column: both order the numbered keys by key; one
    leaves equal keys in their order, the other turns them around. *)
Definition key_order (ties : relation nat) : relation (nat * option string) :=
  λ a b, if decide (a.2 = b.2) then ties a.1 b.1 else key_le a.2 b.2.

#[export] Instance key_order_dec ties `{!RelDecision ties} :
  RelDecision (key_order ties).
Proof. intros a b. unfold key_order. destruct (decide (a.2 = b.2)); apply _. Defined.

Definition argsort_with (ties : relation nat) `{!RelDecision ties}
    (keys : list (option string)) : list nat :=
  (merge_sort (key_order ties) (imap pair keys)).*1.

Definition stable_argsort := argsort_with le.
Definition reversing_argsort := argsort_with (flip le).

(** A platform given by tables: the directories that exist, what each
    (folder, pattern) globs to, what each (regex, text) matches to. *)
Definition table_platform (dirs : list Path)
    (globs : list ((Path * string) * (list Path * option Exn)))
    (answers : list ((string * string) * MatchResult))
    (sorter : list (option string) → list nat) : Platform :=
  {| is_dir p := bool_decide (p ∈ dirs);
     rglob folder q := default ([], None) (assoc (folder, q) globs);
     re_match regex text := default NoMatch (assoc (regex, text) answers);
     argsort := sorter |}.

Definition abs (l : list string) : Path := mkPath true l.

Definition demo_dirs : list Path :=
  [abs ["data"]; abs ["data"; "sub"]; abs ["data"; "a"]; abs ["data"; "b"];
   abs ["data"; "many"]; abs ["other"]].

(** Eighteen files of one name, [/data/many/s01/x.tif] to
    [/data/many/s18/x.tif], in the order the glob yields them. *)
Definition demo_many_files : list Path :=
  (λ d, abs ["data"; "many"; d; "x.tif"]) <$>
  ["s01"; "s02"; "s03"; "s04"; "s05"; "s06"; "s07"; "s08"; "s09";
   "s10"; "s11"; "s12"; "s13"; "s14"; "s15"; "s16"; "s17"; "s18"].

Definition demo_globs : list ((Path * string) * (list Path * option Exn)) :=
  [((abs ["data"; "sub"], "*.tif"),
    ([abs ["data"; "sub"; "ABC123_type.tif"];
      abs ["data"; "sub"; "DEF456_other.tif"]], None));
   ((abs ["data"; "many"], "x.tif"), (demo_many_files, None))].

Definition test_regex : string :=
  "(?P<condition>\w{3})(?P<id>\d{3})_(?P<type>\w*).tif".

Definition demo_answers : list ((string * string) * MatchResult) :=
  [(("^A", "ABC123_type.tif"), Matched []);
   (("^AB", "ABC123_type.tif"), Matched []);
   ((test_regex, "ABC123_type.tif"),
    Matched [("condition", Some "ABC"); ("id", Some "123"); ("type", Some "type")]);
   ((test_regex, "DEF456_other.tif"),
    Matched [("condition", Some "DEF"); ("id", Some "456"); ("type", Some "other")]);
   (("(?P<folder>s..)", "sub"), Matched [("folder", Some "sub")]);
   (("(?P<stem>c)", "c.tif"), Matched [("stem", Some "c")])].

Definition demo : Platform :=
  table_platform demo_dirs demo_globs demo_answers stable_argsort.

(** The same file system under a sort that turns equal keys around. *)
Definition demo_reversing : Platform :=
  table_platform demo_dirs demo_globs demo_answers reversing_argsort.

(** The world [w] with the folders [ps] registered and [lines] printed. *)
Definition registered (w : World) (ps : list Path) (lines : list Line) : World :=
  mkWorld (mkDataFinder (root (self w)) (folders (self w) ++ ps))
          (stdout w ++ lines).

(** A computation that leaves the attributes of the object as they are. *)
Definition keeps_self {A} (m : M A) : Prop := ∀ w, self (m w).2 = self w.

(** The stored root is a path and every registered folder lies under it. *)
Definition folders_under_root (w : World) : Prop :=
  ∃ r, root (self w) = Some (RPath r) ∧
       Forall (λ f, is_relative_to f r = true) (folders (self w)).

(** The object over the demo file system: root [/data], folders [fs]. *)
Definition demo_world (fs : list Path) : World :=
  mkWorld (mkDataFinder (Some (RPath (abs ["data"]))) fs) [].

Definition rel (l : list string) : Path := mkPath false l.

(** Files, rows and regex entries of the demo. *)
Definition demo_file : Path := abs ["data"; "sub"; "ABC123_type.tif"].
Definition demo_file2 : Path := abs ["data"; "sub"; "DEF456_other.tif"].

Definition demo_classifier : list (string * string) :=
  [("typeA", "^A"); ("typeAB", "^AB")].

Definition demo_rows : list Row :=
  [dict_update (new_row demo_file)
     [("condition", VStr "ABC"); ("id", VStr "123"); ("type", VStr "type")];
   dict_update (new_row demo_file2)
     [("condition", VStr "DEF"); ("id", VStr "456"); ("type", VStr "other")]].

(** The rows of the eighteen files of one name, in the order they are met. *)
Definition demo_many_rows : list Row := new_row <$> demo_many_files.

(** A map with a pattern that fails on [demo_file] at position 0 and one
    that matches its folder at position 1. *)
Definition demo_failing_map : gmap Z Entry :=
  {[ 0 := Pattern "(?P<condition>XXX)"; 1 := Pattern "(?P<folder>s..)" ]}.

(** An object before [__init__]. *)
Definition new_object : World := mkWorld (mkDataFinder None []) [].

(** The world after running [m] from [w]. *)
Definition after {A} (m : M A) (w : World) : World := (m w).2.

(** The world [w] with [r] stored as its root. *)
Definition with_root (r : PyRoot) (w : World) : World :=
  mkWorld (mkDataFinder (Some r) (folders (self w))) (stdout w).

(** A computation that leaves the object and the output as they are. *)
Definition silent {A} (m : M A) : Prop := ∀ w, (m w).2 = w.

(** The keys a row is created with (line 103). *)
Definition base_keys : list string := ["filename"; "path"; "suffix"].

Section Search.

Context `{Platform}.

(** The files a query for [q] meets: those of each folder, folder by
    folder. *)
Definition all_files (q : string) (fs : list Path) : list Path :=
  concat ((λ f, (rglob f q).1) <$> fs).

(** What the search makes of one file under the root [r]: the row it keeps,
    if it keeps one. *)
Definition file_outcome (regex_info : list (Z * Entry)) (require_match : bool)
    (r : PyRoot) (file : Path) (o : option Row) : Prop :=
  ∃ rel row keep,
    relative_to_root file r = Ret rel ∧
    match_file regex_info require_match rel (new_row file) = Ret (row, keep) ∧
    o = if keep : bool then Some row else None.

End Search.

(** The demo object after [set_root] was given a list. *)
Definition demo_list_world : World :=
  mkWorld (mkDataFinder (Some (RList [abs ["data"]])) [abs ["data"; "sub"]]) [].

(** * Properties *)

Section Facts.

Context `{Platform}.

(** ** Running computations *)

Lemma run_bind {A B} (m : M A) (f : A → M B) w :
  (m ≫= f) w =
  match m w with
  | (Ret a, w') => f a w'
  | (Raise e, w') => (Raise e, w')
  end.
Proof. reflexivity. Qed.

Lemma run_bind_ret {A B} (m : M A) (f : A → M B) w a w' :
  m w = (Ret a, w') → (m ≫= f) w = f a w'.
Proof. intros E. rewrite run_bind, E. reflexivity. Qed.

Lemma run_bind_raise {A B} (m : M A) (f : A → M B) w e w' :
  m w = (Raise e, w') → (m ≫= f) w = (Raise e, w').
Proof. intros E. rewrite run_bind, E. reflexivity. Qed.

Lemma world_eta w : mkWorld (mkDataFinder (root (self w)) (folders (self w))) (stdout w) = w.
Proof. destruct w as [[r fs] out]. reflexivity. Qed.

(** ** Configuring the root *)

Lemma filter_is_dir_nil candidates :
  Forall (λ c, is_dir c = false) candidates →
  List.filter is_dir candidates = [].
Proof.
  induction 1 as [|c cs Hc _ IH]; simpl; [done|].
  rewrite Hc. exact IH.
Qed.

Lemma filter_is_dir_nil_inv candidates :
  List.filter is_dir candidates = [] →
  Forall (λ c, is_dir c = false) candidates.
Proof.
  induction candidates as [|c cs IH]; simpl; intros E; [constructor|].
  destruct (is_dir c) eqn:Ec; [done|].
  constructor; [exact Ec | exact (IH E)].
Qed.

Lemma set_root_fails r w :
  no_valid_root r → set_root r w = (Raise ValueError, w).
Proof.
  destruct r as [p|cs]; simpl; intros Hr; unfold set_root; rewrite run_bind.
  - rewrite Hr. reflexivity.
  - rewrite (filter_is_dir_nil _ Hr). reflexivity.
Qed.

(** What a [set_root] that does not raise leaves in the attribute: its
    argument as it came in. *)
Lemma set_root_succeeds r w :
  ¬ no_valid_root r →
  set_root r w =
    (Ret tt, mkWorld (mkDataFinder (Some r) (folders (self w))) (stdout w)).
Proof.
  destruct r as [p|cs]; simpl; intros Hr; unfold set_root; rewrite run_bind.
  - destruct (is_dir p); [reflexivity | done].
  - destruct (List.filter is_dir cs) as [|v vs] eqn:E; [|reflexivity].
    exfalso. apply Hr. by apply filter_is_dir_nil_inv.
Qed.

(** C9: a root configuration that fails (a single path that is no
    directory, or a list without a directory) raises and leaves the stored
    root, and everything else, as it was; so does [add_folders] when it is
    given such a root. *)
Theorem failed_set_root_keeps_root r w :
  no_valid_root r →
  set_root r w = (Raise ValueError, w) ∧
  ∀ fs strict, add_folders fs (Some r) strict w = (Raise ValueError, w).
Proof.
  intros Hr. split; [by apply set_root_fails|].
  intros fs strict. unfold add_folders, maybe_set_root.
  by apply run_bind_raise, set_root_fails.
Qed.

(** ** Registering folders *)

Lemma add_one_registers strict f p w :
  resolved (root (self w)) f = Ret p → is_dir p = true →
  add_one strict f w = (Ret tt, registered w [p] []).
Proof.
  unfold resolved, add_one, registered. intros Hres Hdir. rewrite run_bind.
  destruct (is_absolute f).
  - injection Hres as ->. simpl. rewrite Hdir. unfold append_folder.
    by rewrite app_nil_r.
  - rewrite run_bind. unfold get_root.
    destruct (root (self w)) as [r|] eqn:Er; [|done].
    unfold lift. rewrite Hres, Hdir. unfold append_folder.
    by rewrite Er, app_nil_r.
Qed.

Lemma add_one_missing strict f p w :
  resolved (root (self w)) f = Ret p → is_dir p = false →
  add_one strict f w =
    if strict then (Raise ValueError, w)
    else (Ret tt, registered w [] [WarnSkipping p]).
Proof.
  unfold resolved, add_one, registered. intros Hres Hdir. rewrite run_bind.
  destruct (is_absolute f).
  - injection Hres as ->. simpl. rewrite Hdir.
    destruct strict; [reflexivity|]. unfold print.
    rewrite app_nil_r. by destruct w as [[??]?].
  - rewrite run_bind. unfold get_root.
    destruct (root (self w)) as [r|] eqn:Er; [|done].
    unfold lift. rewrite Hres, Hdir.
    destruct strict; [reflexivity|]. unfold print.
    rewrite app_nil_r. destruct w as [[??]?]. simpl in *. by subst.
Qed.

Lemma registered_registered w ps ls ps' ls' :
  registered (registered w ps ls) ps' ls' = registered w (ps ++ ps') (ls ++ ls').
Proof. unfold registered. simpl. by rewrite !app_assoc. Qed.

Lemma registered_nil w : registered w [] [] = w.
Proof. unfold registered. rewrite !app_nil_r. apply world_eta. Qed.

Lemma for_each_strict_stops pre pre' bad bad' post w :
  Forall2 (λ f p, resolved (root (self w)) f = Ret p ∧ is_dir p = true) pre pre' →
  resolved (root (self w)) bad = Ret bad' → is_dir bad' = false →
  for_each (pre ++ bad :: post) (add_one true) w =
    (Raise ValueError, registered w pre' []).
Proof.
  intros Hpre. revert w pre' Hpre.
  induction pre as [|f pre IH]; intros w pre' Hpre Hbad Hdir.
  - apply Forall2_nil_inv_l in Hpre as ->. simpl.
    rewrite run_bind, (add_one_missing true bad bad') by done.
    by rewrite registered_nil.
  - apply Forall2_cons_inv_l in Hpre as (p & ps & [Hp Hd] & Hps & ->).
    simpl. rewrite (run_bind_ret _ _ _ _ _ (add_one_registers true f p w Hp Hd)).
    rewrite (IH _ ps); [by rewrite registered_registered|exact Hps|exact Hbad|exact Hdir].
Qed.

Lemma for_each_skips fs ps w :
  Forall2 (λ f p, resolved (root (self w)) f = Ret p) fs ps →
  for_each fs (add_one false) w =
    (Ret tt, registered w (List.filter is_dir ps)
               (WarnSkipping <$> List.filter (λ p, negb (is_dir p)) ps)).
Proof.
  intros Hfs. revert w ps Hfs.
  induction fs as [|f fs IH]; intros w ps Hfs.
  - apply Forall2_nil_inv_l in Hfs as ->. simpl. by rewrite registered_nil.
  - apply Forall2_cons_inv_l in Hfs as (p & ps' & Hp & Hps & ->).
    simpl. destruct (is_dir p) eqn:Hd; simpl.
    + rewrite (run_bind_ret _ _ _ _ _ (add_one_registers false f p w Hp Hd)).
      rewrite (IH _ ps'); [by rewrite registered_registered|exact Hps].
    + rewrite (run_bind_ret _ _ _ _ _ (add_one_missing false f p w Hp Hd)).
      rewrite (IH _ ps'); [by rewrite registered_registered|exact Hps].
Qed.

(** C6: once the root argument, if any, is in place (world [w1]):
    with [strict] a first folder that resolves to no directory raises
    [ValueError], the folders before it stay registered and none after it
    is added; without [strict] every such folder is skipped with a warning
    and the others are registered, in order. *)
Theorem add_folders_missing_folder root_arg w w1 :
  maybe_set_root root_arg w = (Ret tt, w1) →
  (∀ pre pre' bad bad' post,
     Forall2 (λ f p, resolved (root (self w1)) f = Ret p ∧ is_dir p = true)
             pre pre' →
     resolved (root (self w1)) bad = Ret bad' → is_dir bad' = false →
     add_folders (pre ++ bad :: post) root_arg true w =
       (Raise ValueError, registered w1 pre' []))
  ∧
  (∀ fs ps,
     Forall2 (λ f p, resolved (root (self w1)) f = Ret p) fs ps →
     add_folders fs root_arg false w =
       (Ret tt, registered w1 (List.filter is_dir ps)
                  (WarnSkipping <$> List.filter (λ p, negb (is_dir p)) ps))).
Proof.
  intros Hroot. split.
  - intros pre pre' bad bad' post Hpre Hbad Hdir. unfold add_folders.
    rewrite (run_bind_ret _ _ _ _ _ Hroot).
    by apply for_each_strict_stops with bad'.
  - intros fs ps Hfs. unfold add_folders.
    rewrite (run_bind_ret _ _ _ _ _ Hroot).
    by apply for_each_skips.
Qed.

(** ** [query] only reads the object *)

Lemma keeps_self_ret {A} (a : A) : keeps_self (mret a).
Proof. intros w. reflexivity. Qed.

Lemma keeps_self_raise {A} e : keeps_self (raise (A:=A) e).
Proof. intros w. reflexivity. Qed.

Lemma keeps_self_lift {A} (r : Res A) : keeps_self (lift r).
Proof. intros w. reflexivity. Qed.

Lemma keeps_self_print l : keeps_self (print l).
Proof. intros w. reflexivity. Qed.

Lemma keeps_self_get_folders : keeps_self get_folders.
Proof. intros w. reflexivity. Qed.

Lemma keeps_self_get_root : keeps_self get_root.
Proof. intros w. unfold get_root. by destruct (root (self w)). Qed.

Lemma keeps_self_bind {A B} (m : M A) (f : A → M B) :
  keeps_self m → (∀ a, keeps_self (f a)) → keeps_self (m ≫= f).
Proof.
  intros Hm Hf w. rewrite run_bind. specialize (Hm w).
  destruct (m w) as [[a|e] w1]; simpl in *; [|exact Hm].
  rewrite Hf. exact Hm.
Qed.

Lemma keeps_self_when b m : keeps_self m → keeps_self (when b m).
Proof. destruct b; [done|]. intros _. apply keeps_self_ret. Qed.

Lemma keeps_self_for_fold {A B} (l : list A) (body : A → B → M B) acc :
  (∀ x b, keeps_self (body x b)) → keeps_self (for_fold l body acc).
Proof.
  intros Hbody. revert acc. induction l as [|x l IH]; intros acc; simpl.
  - apply keeps_self_ret.
  - apply keeps_self_bind; [apply Hbody | exact IH].
Qed.

Create HintDb keeps discriminated.
#[local] Hint Resolve keeps_self_ret keeps_self_raise keeps_self_lift
  keeps_self_print keeps_self_get_folders keeps_self_get_root
  keeps_self_when : keeps.

Ltac keeps :=
  repeat first
    [ progress auto with keeps
    | apply keeps_self_bind; [|intros ?]
    | apply keeps_self_when
    | match goal with
      | |- keeps_self (if ?b then _ else _) => destruct b
      | |- keeps_self (match ?x with Some _ => _ | None => _ end) => destruct x
      | |- keeps_self (let '(_, _) := ?x in _) => destruct x
      | |- keeps_self (match ?x with [] => _ | _ :: _ => _ end) => destruct x
      end ].

Lemma keeps_self_process_file ri rm v file rows :
  keeps_self (process_file ri rm v file rows).
Proof. unfold process_file. keeps. Qed.

Lemma keeps_self_process_folder q ri rm v folder rows :
  keeps_self (process_folder q ri rm v folder rows).
Proof.
  unfold process_folder. keeps.
  apply keeps_self_for_fold. intros. apply keeps_self_process_file.
Qed.

Lemma keeps_self_collect_rows q ri rm v : keeps_self (collect_rows q ri rm v).
Proof.
  unfold collect_rows. keeps.
  apply keeps_self_for_fold. intros. apply keeps_self_process_folder.
Qed.

(** C10: whatever the object holds and whatever the arguments, the object
    after [query] has the root and the folders it had before, whether the
    call returns or raises. *)
Theorem query_keeps_registry q regex_info require_match verbose w :
  self (after (query q regex_info require_match verbose) w) = self w.
Proof.
  unfold after. revert w. change (keeps_self (query q regex_info require_match verbose)).
  unfold query. apply keeps_self_bind; [apply keeps_self_collect_rows|].
  intros rows. keeps.
Qed.

(** ** What [verbose] changes

    The narration of a file repeats an expression the search evaluates
    anyway; the narration of a folder and of the root does not. *)

Lemma process_file_verbose ri rm file rows w1 w2 :
  self w1 = self w2 →
  (process_file ri rm true file rows w1).1 =
  (process_file ri rm false file rows w2).1.
Proof.
  intros E. unfold process_file, when, get_root, lift, print.
  unfold mbind, M_bind, mret, M_ret. simpl. rewrite <- E.
  destruct (root (self w1)) as [r|] eqn:Er; simpl; [|reflexivity].
  destruct (relative_to_root file r) as [rel0|e] eqn:Erel; simpl;
    [|reflexivity].
  rewrite Er, Erel.
  destruct (match_file ri rm rel0 (new_row file)) as [[row keep]|e]; simpl;
    [|reflexivity].
  by destruct keep, rm.
Qed.

Lemma for_fold_files_verbose ri rm files rows w1 w2 :
  self w1 = self w2 →
  (for_fold files (process_file ri rm true) rows w1).1 =
  (for_fold files (process_file ri rm false) rows w2).1.
Proof.
  revert rows w1 w2. induction files as [|file files IH]; intros rows w1 w2 E;
    simpl; [reflexivity|].
  rewrite !run_bind.
  pose proof (process_file_verbose ri rm file rows w1 w2 E) as Hres.
  pose proof (keeps_self_process_file ri rm true file rows w1) as H1.
  pose proof (keeps_self_process_file ri rm false file rows w2) as H2.
  destruct (process_file ri rm true file rows w1) as [[rows1|e1] w1'],
           (process_file ri rm false file rows w2) as [[rows2|e2] w2'];
    simpl in *; try done.
  injection Hres as ->. apply IH. congruence.
Qed.

Lemma process_folder_verbose q ri rm folder rows r w1 w2 :
  self w1 = self w2 → root (self w1) = Some (RPath r) →
  is_relative_to folder r = true →
  (process_folder q ri rm true folder rows w1).1 =
  (process_folder q ri rm false folder rows w2).1.
Proof.
  intros E Hr Hunder. unfold process_folder.
  rewrite (run_bind_ret _ _ w1 tt
             (mkWorld (self w1)
                (stdout w1 ++ [EnteringFolder
                   (mkPath false (drop (length (segs r)) (segs folder)))]))).
  2:{ unfold when, get_root, lift, print, relative_to_root, relative_to.
      unfold mbind, M_bind. by rewrite Hr, Hunder. }
  rewrite (run_bind_ret _ _ w2 tt w2) by reflexivity.
  rewrite !run_bind.
  match goal with
  | |- context [for_fold ?fs (process_file ri rm true) rows ?w] =>
      pose proof (for_fold_files_verbose ri rm fs rows w w2 E) as Hres;
      destruct (for_fold fs (process_file ri rm true) rows w) as [[rows1|e1] w1']
  end;
  destruct (for_fold (rglob folder q).1 (process_file ri rm false) rows w2)
    as [[rows2|e2] w2']; simpl in *; try done.
  injection Hres as ->. by destruct (rglob folder q).2.
Qed.

Lemma for_fold_folders_verbose q ri rm fs rows r w1 w2 :
  self w1 = self w2 → root (self w1) = Some (RPath r) →
  Forall (λ f, is_relative_to f r = true) fs →
  (for_fold fs (process_folder q ri rm true) rows w1).1 =
  (for_fold fs (process_folder q ri rm false) rows w2).1.
Proof.
  intros E Hr Hfs. revert rows w1 w2 E Hr.
  induction Hfs as [|f fs Hf _ IH]; intros rows w1 w2 E Hr; simpl; [reflexivity|].
  rewrite !run_bind.
  pose proof (process_folder_verbose q ri rm f rows r w1 w2 E Hr Hf) as Hres.
  pose proof (keeps_self_process_folder q ri rm true f rows w1) as H1.
  pose proof (keeps_self_process_folder q ri rm false f rows w2) as H2.
  destruct (process_folder q ri rm true f rows w1) as [[rows1|e1] w1'],
           (process_folder q ri rm false f rows w2) as [[rows2|e2] w2'];
    simpl in *; try done.
  injection Hres as ->. apply IH; congruence.
Qed.

Lemma collect_rows_verbose q ri rm w :
  folders_under_root w →
  (collect_rows q ri rm true w).1 = (collect_rows q ri rm false w).1.
Proof.
  intros (r & Hr & Hfs). unfold collect_rows.
  rewrite (run_bind_ret _ _ w tt
             (mkWorld (self w)
                ((stdout w ++ [Searching q]) ++ [InRootFolder (RPath r)]))).
  2:{ unfold when, get_root, print, mbind, M_bind. simpl. by rewrite Hr. }
  rewrite (run_bind_ret (when false _) _ w tt w) by reflexivity.
  rewrite (run_bind_ret get_folders _ _ (folders (self w)) _) by reflexivity.
  rewrite (run_bind_ret get_folders _ w (folders (self w)) w) by reflexivity.
  by apply for_fold_folders_verbose with r.
Qed.

(** Apart from a folder outside the root (and a root that is no path),
    [verbose] has no say in what [query] returns or raises. *)
Lemma query_verbose_same_data q regex_info require_match w :
  folders_under_root w →
  (query q regex_info require_match true w).1 =
  (query q regex_info require_match false w).1.
Proof.
  intros Hw. unfold query. rewrite !run_bind.
  pose proof (collect_rows_verbose q regex_info require_match w Hw) as Hres.
  destruct (collect_rows q regex_info require_match true w) as [[rows1|e1] w1],
           (collect_rows q regex_info require_match false w) as [[rows2|e2] w2];
    simpl in *; try discriminate; injection Hres as ->; [|reflexivity].
  by destruct rows2.
Qed.

(** ** The effective regex map of a file *)

Lemma find_snoc {A} (P : A → bool) l x :
  List.find P (l ++ [x]) =
  match List.find P l with
  | Some y => Some y
  | None => if P x then Some x else None
  end.
Proof.
  induction l as [|y l IH]; simpl; [reflexivity|].
  destruct (P y); [reflexivity | exact IH].
Qed.

Lemma py_mod_pos i n : n ≠ 0%nat → py_mod i (Z.of_nat n) = Ret (i `mod` Z.of_nat n).
Proof.
  intros Hn. unfold py_mod.
  destruct (Z.eqb_spec (Z.of_nat n) 0) as [E|_]; [lia | reflexivity].
Qed.

Lemma effective_entry_cons i reg rest n k :
  effective_entry ((i, reg) :: rest) n k =
  match effective_entry rest n k with
  | Some e => Some e
  | None => if bool_decide (i `mod` Z.of_nat n = k) then Some reg else None
  end.
Proof.
  unfold effective_entry. rewrite reverse_cons, find_snoc.
  destruct (List.find _ (reverse rest)); simpl; [reflexivity|].
  by destruct (bool_decide _).
Qed.

Lemma regex_info_mod_from_lookup acc items n :
  n ≠ 0%nat →
  ∃ m, regex_info_mod_from acc items n = Ret m ∧
       ∀ k, m !! k = match effective_entry items n k with
                     | Some e => Some e
                     | None => acc !! k
                     end.
Proof.
  intros Hn. revert acc. induction items as [|[i reg] rest IH]; intros acc.
  - exists acc. split; reflexivity.
  - simpl. rewrite (py_mod_pos i n Hn). simpl.
    destruct (IH (<[i `mod` Z.of_nat n := reg]> acc)) as (m & Em & Hm).
    exists m. split; [exact Em|]. intros k.
    rewrite Hm, effective_entry_cons.
    destruct (effective_entry rest n k); [reflexivity|].
    rewrite lookup_insert. case_bool_decide; case_decide; congruence.
Qed.

Lemma regex_info_mod_lookup regex_info n :
  n ≠ 0%nat →
  ∃ m, regex_info_mod regex_info n = Ret m ∧
       ∀ k, m !! k = effective_entry regex_info n k.
Proof.
  intros Hn. unfold regex_info_mod.
  destruct (regex_info_mod_from_lookup ∅ regex_info n Hn) as (m & Em & Hm).
  exists m. split; [exact Em|]. intros k. rewrite Hm, lookup_empty.
  by destruct (effective_entry regex_info n k).
Qed.


(** ** Classifier positions *)

Lemma dict_set_twice k v v' d : dict_set k v (dict_set k v' d) = dict_set k v d.
Proof.
  induction d as [|[k' u] d IH]; simpl.
  - by rewrite bool_decide_eq_true_2.
  - case_bool_decide as E; simpl.
    + by rewrite bool_decide_eq_true_2.
    + rewrite bool_decide_eq_false_2 by done. by rewrite IH.
Qed.

Lemma matching_labels_cons key regex rest part :
  matching_labels ((key, regex) :: rest) part =
  if matches regex part then key :: matching_labels rest part
  else matching_labels rest part.
Proof. unfold matching_labels. simpl. by destruct (matches regex part). Qed.

Lemma classify_last_matching labels part row :
  Forall (λ lp, re_match lp.2 part ≠ ReError) labels →
  classify labels part row = Ret (with_info (last_matching labels part) row).
Proof.
  intros Hok. revert row.
  induction Hok as [|[key regex] rest Hre _ IH]; intros row; [reflexivity|].
  simpl in Hre. simpl. unfold last_matching.
  rewrite matching_labels_cons. unfold matches.
  destruct (re_match regex part) as [| |gd]; [done| apply IH |].
  rewrite IH. unfold last_matching. rewrite last_cons.
  destruct (last (matching_labels rest part)) as [l|]; simpl; [|reflexivity].
  by rewrite dict_set_twice.
Qed.

(** C2, as the code has it: at a classifier position every (label,
    pattern) pair is tried, in mapping order, and each pattern that matches
    sets [info] to its label; so [info] ends as the label of the last
    matching pattern.  When no pattern matches the row is as it was.  The
    position never changes whether the row is kept. *)
Theorem classifier_last_label_wins m require_match i part row keep labels :
  m !! i = Some (Classifier labels) →
  Forall (λ lp, re_match lp.2 part ≠ ReError) labels →
  at_position m require_match i part (row, keep) =
    Ret (with_info (last_matching labels part) row, keep).
Proof.
  intros Hm Hok. unfold at_position. rewrite Hm. simpl.
  by rewrite (classify_last_matching _ _ _ Hok).
Qed.

(** ** Single-pattern positions and [require_match] *)

Lemma at_position_require_match m rm i part row keep :
  at_position m rm i part (row, keep) =
  match at_position m false i part (row, true) with
  | Ret (row', _) => Ret (row', keep && negb (rm && position_fails m i part))
  | Raise e => Raise e
  end.
Proof.
  unfold at_position, position_fails.
  destruct (m !! i) as [[regex|labels]|]; simpl.
  - destruct (re_match regex part); simpl; [reflexivity| |].
    + by destruct rm, keep.
    + by rewrite andb_false_r, andb_true_r.
  - destruct (classify labels part row); simpl; [|reflexivity].
    by rewrite andb_false_r, andb_true_r.
  - by rewrite andb_false_r, andb_true_r.
Qed.

(** The walk under [require_match] extracts what the walk without it
    extracts, raises when it raises, and keeps the row unless a position
    failed. *)
Lemma walk_require_match m rm i rparts row keep :
  walk m rm i rparts (row, keep) =
  match walk m false i rparts (row, true) with
  | Ret (row', _) => Ret (row', keep && negb (rm && any_failure m i rparts))
  | Raise e => Raise e
  end.
Proof.
  revert i row keep. induction rparts as [|part rest IH]; intros i row keep; simpl.
  - by rewrite andb_false_r, andb_true_r.
  - rewrite (at_position_require_match m rm i part row keep).
    rewrite (at_position_require_match m false i part row true).
    destruct (at_position m false i part (row, true)) as [[row1 k1]|e]; simpl;
      [|reflexivity].
    rewrite (IH (i + 1) row1 (keep && negb (rm && position_fails m i part))).
    destruct (walk m false (i + 1) rest (row1, true)) as [[row2 k2]|e]; simpl;
      [|reflexivity].
    f_equal. f_equal.
    by destruct keep, rm, (position_fails m i part), (any_failure m (i + 1) rest).
Qed.


(** ** The table [query] returns *)

Lemma process_folder_no_files q ri rm folder rows w :
  rglob folder q = ([], None) →
  process_folder q ri rm false folder rows w = (Ret rows, w).
Proof. intros E. unfold process_folder. rewrite E. reflexivity. Qed.

Lemma for_fold_no_files q ri rm fs rows w :
  Forall (λ f, rglob f q = ([], None)) fs →
  for_fold fs (process_folder q ri rm false) rows w = (Ret rows, w).
Proof.
  induction 1 as [|f fs Hf _ IH]; simpl; [reflexivity|].
  by rewrite (run_bind_ret _ _ _ _ _ (process_folder_no_files q ri rm f rows w Hf)).
Qed.

Lemma collect_rows_no_files q ri rm w :
  Forall (λ f, rglob f q = ([], None)) (folders (self w)) →
  collect_rows q ri rm false w = (Ret [], w).
Proof.
  intros Hfs. unfold collect_rows. simpl. rewrite !run_bind. simpl.
  by apply for_fold_no_files.
Qed.

(** Lines 138-141: a search that ends with no row kept gives the table
    without columns and rows; all that is left behind is the closing line of
    the narration. *)
Theorem query_no_rows q regex_info require_match verbose w w' :
  collect_rows q regex_info require_match verbose w = (Ret [], w') →
  query q regex_info require_match verbose w =
    (Ret empty_frame,
     if verbose then mkWorld (self w') (stdout w' ++ [NoFilesFound]) else w').
Proof.
  intros Hrows. unfold query. rewrite (run_bind_ret _ _ _ _ _ Hrows).
  by destruct verbose.
Qed.

(** The case of a pattern that no folder has a file for. *)
Lemma query_no_files q regex_info require_match w :
  Forall (λ f, rglob f q = ([], None)) (folders (self w)) →
  query q regex_info require_match false w = (Ret empty_frame, w).
Proof.
  intros Hfs. unfold query.
  by rewrite (run_bind_ret _ _ _ _ _ (collect_rows_no_files q _ _ w Hfs)).
Qed.

Lemma gather_fmap {A B} (f : A → B) idx (l : list A) :
  gather idx (f <$> l) = f <$> gather idx l.
Proof.
  unfold gather. induction idx as [|i idx IH]; [reflexivity|].
  csimpl. rewrite list_lookup_fmap, IH.
  by destruct (l !! i).
Qed.

Lemma gather_seq_app {A} (l1 l2 : list A) :
  gather (seq (length l1) (length l2)) (l1 ++ l2) = l2.
Proof.
  unfold gather. revert l1. induction l2 as [|x l2 IH]; intros l1; [reflexivity|].
  csimpl. rewrite lookup_app_r, Nat.sub_diag by lia. csimpl. f_equal.
  specialize (IH (l1 ++ [x])). rewrite length_app, <- app_assoc in IH. simpl in IH.
  by rewrite Nat.add_1_r in IH.
Qed.

Lemma gather_seq {A} (l : list A) : gather (seq 0 (length l)) l = l.
Proof. apply (gather_seq_app [] l). Qed.

Lemma gather_permutation {A} idx (l : list A) :
  idx ≡ₚ seq 0 (length l) → gather idx l ≡ₚ l.
Proof.
  intros Hidx. unfold gather. rewrite Hidx. fold (gather (seq 0 (length l)) l).
  by rewrite gather_seq.
Qed.

Lemma Sorted_fmap_inv {A B} (f : A → B) (R : relation B) (l : list A) :
  Sorted R (f <$> l) → Sorted (λ a b, R (f a) (f b)) l.
Proof.
  induction l as [|x l IH]; intros Hs; [constructor|].
  apply Sorted_inv in Hs as [Hs Hhd]. constructor; [by apply IH|].
  destruct l as [|y l]; constructor. by apply HdRel_inv in Hhd.
Qed.

(** C4, as the code has it: when rows are kept, the table holds exactly
    them, in non-decreasing order of [filename] (a missing one last), under
    the row labels [0 .. n-1]; its columns are the keys of the rows.  The
    order among rows of equal [filename] is that of the library sort. *)
Theorem query_sorted_by_filename q regex_info require_match verbose w w' rows :
  argsort_sorts →
  collect_rows q regex_info require_match verbose w = (Ret rows, w') →
  rows ≠ [] →
  ∃ df, query q regex_info require_match verbose w = (Ret df, w') ∧
        records df ≡ₚ rows ∧
        Sorted by_filename (records df) ∧
        index df = seq 0 (length rows) ∧
        columns df = columns_of rows.
Proof.
  intros Hsort Hrows Hne. unfold query.
  rewrite (run_bind_ret _ _ _ _ _ Hrows).
  destruct rows as [|r rs]; [done|].
  eexists. split; [reflexivity|]. simpl.
  destruct (Hsort (filename_key <$> r :: rs)) as [Hperm Hsorted].
  rewrite length_fmap in Hperm.
  assert (gather (argsort (filename_key <$> r :: rs)) (r :: rs) ≡ₚ r :: rs)
    as Hrec by by apply gather_permutation.
  split; [exact Hrec|]. split.
  - rewrite gather_fmap in Hsorted. by apply Sorted_fmap_inv in Hsorted.
  - split; [|reflexivity]. by rewrite Hrec.
Qed.

End Facts.

(** ** The two sorts of the demo satisfy the sort contract *)

Lemma key_le_refl k : key_le k k.
Proof.
  destruct k as [s|]; simpl; [|done].
  by destruct (String.leb_total s s).
Qed.

Lemma key_le_total a b : key_le a b ∨ key_le b a.
Proof.
  destruct a as [x|], b as [y|]; simpl; auto.
  apply String.leb_total.
Qed.

Lemma key_order_total ties : Total ties → Total (key_order ties).
Proof.
  intros Ht a b. unfold key_order.
  destruct (decide (a.2 = b.2)) as [E|N].
  - rewrite decide_True by done. apply Ht.
  - rewrite decide_False by done. apply key_le_total.
Qed.

Lemma key_order_key_le ties a b : key_order ties a b → key_le a.2 b.2.
Proof.
  unfold key_order. destruct (decide (a.2 = b.2)) as [E|N]; [|done].
  intros _. rewrite E. apply key_le_refl.
Qed.

Lemma gather_numbered (keys : list (option string)) (l : list (nat * option string)) :
  Forall (λ p, keys !! p.1 = Some p.2) l → gather (l.*1) keys = l.*2.
Proof.
  unfold gather. induction 1 as [|[i k] l Hp _ IH]; [reflexivity|].
  csimpl in *. by rewrite Hp, IH.
Qed.

Lemma argsort_with_sorts ties `{!RelDecision ties} dirs globs answers :
  Total ties →
  argsort_sorts (H := table_platform dirs globs answers (argsort_with ties)).
Proof.
  intros Ht keys. simpl. unfold argsort_with.
  pose proof (key_order_total ties Ht) as Htot.
  pose proof (merge_sort_Permutation (key_order ties) (imap pair keys)) as Hperm.
  split.
  - rewrite Hperm, fmap_imap.
    rewrite (imap_ext _ (λ j _, j)) by done.
    by rewrite imap_seq_0, list_fmap_id.
  - rewrite gather_numbered.
    + apply (Sorted_fmap snd (key_order ties) key_le).
      * intros a b. apply key_order_key_le.
      * by apply Sorted_merge_sort.
    + apply Forall_forall. intros [i k] Hin.
      rewrite Hperm in Hin.
      apply elem_of_lookup_imap in Hin as (j & y & [= -> ->] & Hj).
      exact Hj.
Qed.

Lemma flip_le_total : Total (flip le).
Proof. intros x y. unfold flip. lia. Qed.

Lemma demo_sorts : argsort_sorts (H := demo).
Proof. apply argsort_with_sorts. apply _. Qed.

Lemma demo_reversing_sorts : argsort_sorts (H := demo_reversing).
Proof. apply argsort_with_sorts. apply flip_le_total. Qed.

(** * The properties on the demo file system *)

(** The demo objects are what the constructor builds. *)
Lemma init_demo_world :
  init (H := demo) [abs ["data"; "sub"]] (Some (RPath (abs ["data"]))) new_object
    = (Ret tt, demo_world [abs ["data"; "sub"]]) ∧
  init (H := demo) [abs ["other"]] (Some (RPath (abs ["data"]))) new_object
    = (Ret tt, demo_world [abs ["other"]]) ∧
  init (H := demo) [rel ["a"]; rel ["b"]] (Some (RPath (abs ["data"]))) new_object
    = (Ret tt, demo_world [abs ["data"; "a"]; abs ["data"; "b"]]).
Proof. repeat split; vm_compute; reflexivity. Qed.

(** C1: [set_root] on the candidates [/missing], [/data], of which
    [/data] is the first (and only) directory, returns normally and leaves
    in [root] the whole list of candidates, not the path [/data]. *)
Theorem set_root_stores_candidate_list :
  List.filter (is_dir (Platform := demo)) [abs ["missing"]; abs ["data"]]
    = [abs ["data"]] ∧
  set_root (H := demo) (RList [abs ["missing"]; abs ["data"]]) new_object
    = (Ret tt, mkWorld (mkDataFinder
                          (Some (RList [abs ["missing"]; abs ["data"]])) []) []) ∧
  Some (RList [abs ["missing"]; abs ["data"]]) ≠ Some (RPath (abs ["data"])).
Proof. split; [|split]; [vm_compute; reflexivity .. | discriminate]. Qed.

Lemma failed_set_root_keeps_root_witness :
  no_valid_root (H := demo) (RList [abs ["missing"]; abs ["nowhere"]]) ∧
  set_root (H := demo) (RList [abs ["missing"]; abs ["nowhere"]])
      (demo_world [abs ["data"; "sub"]])
    = (Raise ValueError, demo_world [abs ["data"; "sub"]]) ∧
  ∀ fs strict,
    add_folders (H := demo) fs (Some (RList [abs ["missing"]; abs ["nowhere"]]))
        strict (demo_world [abs ["data"; "sub"]])
      = (Raise ValueError, demo_world [abs ["data"; "sub"]]).
Proof.
  assert (no_valid_root (H := demo) (RList [abs ["missing"]; abs ["nowhere"]]))
    as Hr by (repeat constructor).
  split; [exact Hr|].
  exact (failed_set_root_keeps_root (H := demo) _ _ Hr).
Defined.

Lemma add_folders_missing_folder_witness :
  maybe_set_root (H := demo) None (demo_world []) = (Ret tt, demo_world []) ∧
  add_folders (H := demo) [rel ["a"]; rel ["nope"]; rel ["b"]] None true
      (demo_world [])
    = (Raise ValueError, registered (demo_world []) [abs ["data"; "a"]] []) ∧
  add_folders (H := demo) [rel ["a"]; rel ["nope"]; rel ["b"]] None false
      (demo_world [])
    = (Ret tt, registered (demo_world [])
                 [abs ["data"; "a"]; abs ["data"; "b"]]
                 [WarnSkipping (abs ["data"; "nope"])]).
Proof.
  split; [reflexivity|].
  destruct (add_folders_missing_folder (H := demo) None (demo_world [])
              (demo_world []) eq_refl) as [Hstrict Hskip].
  split.
  - apply (Hstrict [rel ["a"]] [abs ["data"; "a"]] (rel ["nope"])
             (abs ["data"; "nope"]) [rel ["b"]]).
    + repeat constructor.
    + reflexivity.
    + reflexivity.
  - apply (Hskip [rel ["a"]; rel ["nope"]; rel ["b"]]
             [abs ["data"; "a"]; abs ["data"; "nope"]; abs ["data"; "b"]]).
    repeat constructor.
Defined.

(** The example of the specification: key 3 on a path of three segments
    stands at position 0; of two keys that meet there the later one stays. *)
Example effective_entry_modulo :
  effective_entry [(3, Pattern "(?P<stem>c)")] 3 0 = Some (Pattern "(?P<stem>c)") ∧
  effective_entry [(0, Pattern "first"); (3, Pattern "second")] 3 0
    = Some (Pattern "second") ∧
  effective_entry [(-1, Pattern "outermost")] 3 2 = Some (Pattern "outermost").
Proof. repeat split. Qed.

(** On the path [a/b/c.tif] the pattern keyed 3 is applied to the filename. *)
Example key_three_reaches_filename :
  match_file (H := demo) [(3, Pattern "(?P<stem>c)")] true
      (rel ["a"; "b"; "c.tif"]) (new_row (abs ["data"; "a"; "b"; "c.tif"]))
    = Ret (dict_set "stem" (VStr "c") (new_row (abs ["data"; "a"; "b"; "c.tif"])),
           true).
Proof. vm_compute. reflexivity. Qed.


(** C2 as stated fails: with the labels [typeA] for [^A] and [typeAB] for
    [^AB], both of which match [ABC123_type.tif], the first matching label
    is [typeA], yet the position leaves [info = typeAB]. *)
Lemma classifier_first_label_overwritten :
  first_matching (H := demo) demo_classifier "ABC123_type.tif" = Some "typeA" ∧
  at_position (H := demo) {[ 0 := Classifier demo_classifier ]} true 0
      "ABC123_type.tif" (new_row demo_file, true)
    = Ret (dict_set "info" (VStr "typeAB") (new_row demo_file), true) ∧
  at_position (H := demo) {[ 0 := Classifier demo_classifier ]} true 0
      "ABC123_type.tif" (new_row demo_file, true)
    ≠ Ret (with_info (first_matching (H := demo) demo_classifier "ABC123_type.tif")
             (new_row demo_file), true).
Proof. split; [|split]; [vm_compute; reflexivity .. | vm_compute; discriminate]. Qed.

Lemma classifier_last_label_wins_witness :
  ({[ 0 := Classifier demo_classifier ]} : gmap Z Entry) !! 0
    = Some (Classifier demo_classifier) ∧
  Forall (λ lp, re_match (Platform := demo) lp.2 "ABC123_type.tif" ≠ ReError)
    demo_classifier ∧
  at_position (H := demo) {[ 0 := Classifier demo_classifier ]} true 0
      "ABC123_type.tif" (new_row demo_file, true)
    = Ret (with_info (last_matching (H := demo) demo_classifier "ABC123_type.tif")
             (new_row demo_file), true).
Proof.
  assert (({[ 0 := Classifier demo_classifier ]} : gmap Z Entry) !! 0
            = Some (Classifier demo_classifier)) as Hm by reflexivity.
  assert (Forall (λ lp, re_match (Platform := demo) lp.2 "ABC123_type.tif" ≠ ReError)
            demo_classifier) as Hok by (repeat constructor; discriminate).
  split; [exact Hm|]. split; [exact Hok|].
  exact (classifier_last_label_wins (H := demo) _ true 0 _ _ true _ Hm Hok).
Defined.


(** What the walk of the witness comes to: the row is excluded, and the
    folder position after the failed one has still been extracted. *)
Example failed_position_then_extraction :
  walk (H := demo) demo_failing_map true 0 ["ABC123_type.tif"; "sub"]
      (new_row demo_file, true)
    = Ret (dict_set "folder" (VStr "sub") (new_row demo_file), false) ∧
  walk (H := demo) demo_failing_map false 0 ["ABC123_type.tif"; "sub"]
      (new_row demo_file, true)
    = Ret (dict_set "folder" (VStr "sub") (new_row demo_file), true).
Proof. split; vm_compute; reflexivity. Qed.

(** C3: the folder [/other] lies outside the root [/data] and holds no
    [.tif] file.  Without [verbose] the query returns the empty table; with
    [verbose] it raises [ValueError] when it narrates the folder. *)
Theorem verbose_query_raises_outside_root :
  query (H := demo) "*.tif" [] true false (demo_world [abs ["other"]])
    = (Ret empty_frame, demo_world [abs ["other"]]) ∧
  (query (H := demo) "*.tif" [] true true (demo_world [abs ["other"]])).1
    = Raise ValueError.
Proof. split; vm_compute; reflexivity. Qed.

Lemma query_no_rows_witness :
  collect_rows (H := demo) "*.tif" [] true false (demo_world [abs ["other"]])
    = (Ret [], demo_world [abs ["other"]]) ∧
  query (H := demo) "*.tif" [] true false (demo_world [abs ["other"]])
    = (Ret empty_frame, demo_world [abs ["other"]]).
Proof.
  assert (collect_rows (H := demo) "*.tif" [] true false (demo_world [abs ["other"]])
            = (Ret [], demo_world [abs ["other"]])) as Hrows by reflexivity.
  split; [exact Hrows|].
  exact (query_no_rows (H := demo) _ _ true false _ _ Hrows).
Defined.

(** Rows are discarded, not only absent: both files fail the pattern, and
    the table is the one without columns. *)
Example query_all_rows_discarded :
  (query (H := demo) "*.tif" [(0, Pattern "(?P<condition>XXX)")] true false
     (demo_world [abs ["data"; "sub"]])).1 = Ret empty_frame.
Proof. vm_compute. reflexivity. Qed.

(** C4 as stated fails under a sort of which only the sorting is known:
    the eighteen files [x.tif] are met in the order [s01 .. s18]; the table
    is sorted by [filename] and holds them in another order (this sort
    turns them around). *)
Lemma query_reorders_equal_filenames :
  argsort_sorts (H := demo_reversing) ∧
  collect_rows (H := demo_reversing) "x.tif" [] true false
      (demo_world [abs ["data"; "many"]])
    = (Ret demo_many_rows, demo_world [abs ["data"; "many"]]) ∧
  demo_many_rows ≠ [] ∧
  ∃ df, query (H := demo_reversing) "x.tif" [] true false
            (demo_world [abs ["data"; "many"]])
          = (Ret df, demo_world [abs ["data"; "many"]]) ∧
        records df = reverse demo_many_rows ∧
        ¬ stably_sorted_table demo_many_rows df.
Proof.
  split; [exact demo_reversing_sorts|]. split; [vm_compute; reflexivity|].
  split; [discriminate|].
  eexists. split; [vm_compute; reflexivity|]. split; [vm_compute; reflexivity|].
  intros (_ & _ & Hties & _).
  specialize (Hties (Some "x.tif")). vm_compute in Hties. discriminate.
Qed.

Lemma query_sorted_by_filename_witness :
  argsort_sorts (H := demo) ∧
  collect_rows (H := demo) "*.tif" [(0, Pattern test_regex)] true false
      (demo_world [abs ["data"; "sub"]])
    = (Ret demo_rows, demo_world [abs ["data"; "sub"]]) ∧
  demo_rows ≠ [] ∧
  ∃ df, query (H := demo) "*.tif" [(0, Pattern test_regex)] true false
            (demo_world [abs ["data"; "sub"]])
          = (Ret df, demo_world [abs ["data"; "sub"]]) ∧
        records df ≡ₚ demo_rows ∧
        Sorted by_filename (records df) ∧
        index df = seq 0 (length demo_rows) ∧
        columns df = columns_of demo_rows.
Proof.
  assert (collect_rows (H := demo) "*.tif" [(0, Pattern test_regex)] true false
            (demo_world [abs ["data"; "sub"]])
          = (Ret demo_rows, demo_world [abs ["data"; "sub"]])) as Hrows
    by (vm_compute; reflexivity).
  assert (demo_rows ≠ []) as Hne by discriminate.
  split; [exact demo_sorts|]. split; [exact Hrows|]. split; [exact Hne|].
  exact (query_sorted_by_filename (H := demo) _ _ true false _ _ _
           demo_sorts Hrows Hne).
Defined.

(** The end-to-end scenario of the specification. *)
Example query_test_scenario :
  (query (H := demo) "*.tif" [(0, Pattern test_regex)] true false
     (demo_world [abs ["data"; "sub"]])).1
    = Ret (mkDataFrame
             ["filename"; "path"; "suffix"; "condition"; "id"; "type"]
             [0; 1]%nat demo_rows) ∧
  (query (H := demo) "*.tif" [(0, Pattern "(?P<condition>XXX)")] false false
     (demo_world [abs ["data"; "sub"]])).1
    = Ret (mkDataFrame ["filename"; "path"; "suffix"] [0; 1]%nat
             [new_row demo_file; new_row demo_file2]).
Proof. split; vm_compute; reflexivity. Qed.

(** * Further properties of the methods *)

Section MoreFacts.

Context `{Platform}.

(** ** [set_root] *)

Lemma no_valid_root_cases r : no_valid_root r ∨ ¬ no_valid_root r.
Proof.
  destruct r as [p|cs]; simpl.
  - destruct (is_dir p); [right | left]; done.
  - destruct (decide (Forall (λ c, is_dir c = false) cs)); auto.
Qed.

(** X1: [set_root] either raises [ValueError] and changes nothing, or
    returns and stores its argument, as it came in, as the root; it raises
    exactly when no candidate is a directory.  The folders and the output
    are never touched. *)
Theorem set_root_outcome r w :
  (no_valid_root r ∧ set_root r w = (Raise ValueError, w)) ∨
  (¬ no_valid_root r ∧ set_root r w = (Ret tt, with_root r w)).
Proof.
  destruct (no_valid_root_cases r) as [Hr|Hr].
  - left. split; [exact Hr | by apply set_root_fails].
  - right. split; [exact Hr | by apply set_root_succeeds].
Qed.

(** ** [add_folders] *)

Lemma maybe_set_root_folders root_arg w :
  folders (self (maybe_set_root root_arg w).2) = folders (self w).
Proof.
  destruct root_arg as [r|]; simpl; [|reflexivity].
  destruct (no_valid_root_cases r) as [Hr|Hr].
  - by rewrite set_root_fails.
  - by rewrite set_root_succeeds.
Qed.

Lemma add_one_appends strict f w :
  ∃ added, folders (self (add_one strict f w).2) = folders (self w) ++ added ∧
           Forall (λ p, is_dir p = true) added.
Proof.
  assert (∀ p w0, ∃ added,
    folders (self ((if is_dir p then append_folder p
                    else if strict then raise ValueError
                    else print (WarnSkipping p)) w0).2)
      = folders (self w0) ++ added ∧ Forall (λ p, is_dir p = true) added) as Hstep.
  { intros p w0. destruct (is_dir p) eqn:Hd.
    - exists [p]. split; [reflexivity | by constructor].
    - exists []. rewrite app_nil_r. split; [by destruct strict | constructor]. }
  unfold add_one. rewrite run_bind. destruct (is_absolute f); simpl.
  - apply Hstep.
  - rewrite run_bind. unfold get_root.
    destruct (root (self w)) as [r|]; simpl.
    + unfold lift. destruct (root_truediv r f) as [p|e]; simpl; [apply Hstep|].
      exists []. by rewrite app_nil_r.
    + exists []. by rewrite app_nil_r.
Qed.

Lemma for_each_appends strict fs w :
  ∃ added, folders (self (for_each fs (add_one strict) w).2)
             = folders (self w) ++ added ∧
           Forall (λ p, is_dir p = true) added.
Proof.
  revert w. induction fs as [|f fs IH]; intros w; simpl.
  - exists []. by rewrite app_nil_r.
  - rewrite run_bind.
    destruct (add_one_appends strict f w) as (a1 & E1 & H1).
    destruct (add_one strict f w) as [[[]|e] w1]; simpl in *.
    + destruct (IH w1) as (a2 & E2 & H2). exists (a1 ++ a2).
      rewrite E2, E1, app_assoc. split; [reflexivity | by apply Forall_app].
    + by exists a1.
Qed.

(** X2: whatever its arguments and whether it returns or raises,
    [add_folders] only appends to the folder list, and every path it
    appends is an existing directory. *)
Theorem add_folders_append_only fs root_arg strict w :
  ∃ added,
    folders (self (after (add_folders fs root_arg strict) w))
      = folders (self w) ++ added ∧
    Forall (λ p, is_dir p = true) added.
Proof.
  unfold after, add_folders. rewrite run_bind.
  pose proof (maybe_set_root_folders root_arg w) as Hroot.
  destruct (maybe_set_root root_arg w) as [[[]|e] w1]; simpl in *.
  - destruct (for_each_appends strict fs w1) as (added & E & Hdirs).
    exists added. by rewrite E, Hroot.
  - exists []. by rewrite app_nil_r.
Qed.



Lemma for_each_all_present strict fs ps w :
  Forall2 (λ f p, resolved (root (self w)) f = Ret p ∧ is_dir p = true) fs ps →
  for_each fs (add_one strict) w = (Ret tt, registered w ps []).
Proof.
  intros Hfs. revert w ps Hfs.
  induction fs as [|f fs IH]; intros w ps Hfs.
  - apply Forall2_nil_inv_l in Hfs as ->. simpl. by rewrite registered_nil.
  - apply Forall2_cons_inv_l in Hfs as (p & ps' & [Hp Hd] & Hps & ->).
    simpl. rewrite (run_bind_ret _ _ _ _ _ (add_one_registers strict f p w Hp Hd)).
    rewrite (IH _ ps'); [by rewrite registered_registered | exact Hps].
Qed.

(** X4: when every folder resolves to an existing directory, [strict]
    makes no difference: the call returns, registers the resolved paths in
    order and prints nothing. *)
Theorem add_folders_all_present fs ps strict w :
  Forall2 (λ f p, resolved (root (self w)) f = Ret p ∧ is_dir p = true) fs ps →
  add_folders fs None strict w = (Ret tt, registered w ps []).
Proof.
  intros Hfs. unfold add_folders.
  rewrite (run_bind_ret _ _ w tt w) by reflexivity.
  by apply for_each_all_present.
Qed.

(** ** [__init__] *)

Lemma resolved_under_path p fs rt :
  rt = Some (RPath p) →
  Forall2 (λ f q, resolved rt f = Ret q) fs (truediv p <$> fs).
Proof.
  intros ->. induction fs as [|f fs IH]; csimpl; constructor; [|exact IH].
  unfold resolved, is_absolute, root_truediv, truediv.
  by destruct (absolute f).
Qed.

Lemma init_run p fs w :
  is_dir p = true →
  init fs (Some (RPath p)) w =
    (Ret tt,
     mkWorld (mkDataFinder (Some (RPath p))
                (List.filter is_dir (truediv p <$> fs)))
             (stdout w ++ (WarnSkipping <$>
                List.filter (λ q, negb (is_dir q)) (truediv p <$> fs)))).
Proof.
  intros Hp. unfold init, add_folders.
  rewrite (run_bind_ret _ _ w tt
             (mkWorld (mkDataFinder (root (self w)) []) (stdout w)))
    by reflexivity.
  rewrite (run_bind_ret _ _ _ tt
             (mkWorld (mkDataFinder (Some (RPath p)) []) (stdout w))).
  2:{ simpl. rewrite set_root_succeeds; [reflexivity|]. simpl. by rewrite Hp. }
  rewrite (for_each_skips fs (truediv p <$> fs)).
  - reflexivity.
  - by apply resolved_under_path.
Qed.

(** X5: constructing over a root path that is a directory never raises:
    the folder list starts anew and holds, in order, the folders whose
    resolved path ([root / folder], or the folder itself when absolute) is a
    directory; each of the others is announced as skipped. *)
Theorem init_outcome p fs w :
  is_dir p = true →
  init fs (Some (RPath p)) w =
    (Ret tt,
     mkWorld (mkDataFinder (Some (RPath p))
                (List.filter is_dir (truediv p <$> fs)))
             (stdout w ++ (WarnSkipping <$>
                List.filter (λ q, negb (is_dir q)) (truediv p <$> fs)))).
Proof. apply init_run. Qed.

(** X6: constructing with a list of roots, one of which is a directory,
    and a first folder that is relative raises [TypeError]: the root that
    [set_root] stored is the list, which no folder can be joined to. *)
Theorem init_list_root_type_error cs f fs w :
  ¬ no_valid_root (RList cs) →
  is_absolute f = false →
  init (f :: fs) (Some (RList cs)) w =
    (Raise TypeError, mkWorld (mkDataFinder (Some (RList cs)) []) (stdout w)).
Proof.
  intros Hcs Hf. unfold init, add_folders.
  rewrite (run_bind_ret _ _ w tt
             (mkWorld (mkDataFinder (root (self w)) []) (stdout w)))
    by reflexivity.
  rewrite (run_bind_ret _ _ _ tt
             (mkWorld (mkDataFinder (Some (RList cs)) []) (stdout w))).
  2:{ unfold maybe_set_root. by rewrite set_root_succeeds. }
  simpl. unfold add_one. rewrite !run_bind, Hf. reflexivity.
Qed.

(** ** [query] without [verbose] *)

Lemma silent_ret {A} (a : A) : silent (mret a).
Proof. intros w. reflexivity. Qed.

Lemma silent_lift {A} (r : Res A) : silent (lift r).
Proof. intros w. reflexivity. Qed.

Lemma silent_raise {A} e : silent (raise (A:=A) e).
Proof. intros w. reflexivity. Qed.

Lemma silent_get_root : silent get_root.
Proof. intros w. unfold get_root. by destruct (root (self w)). Qed.

Lemma silent_get_folders : silent get_folders.
Proof. intros w. reflexivity. Qed.

Lemma silent_bind {A B} (m : M A) (f : A → M B) :
  silent m → (∀ a, silent (f a)) → silent (m ≫= f).
Proof.
  intros Hm Hf w. rewrite run_bind. specialize (Hm w).
  destruct (m w) as [[a|e] w1]; simpl in *; subst; [apply Hf | reflexivity].
Qed.

Lemma silent_for_fold {A B} (l : list A) (body : A → B → M B) acc :
  (∀ x b, silent (body x b)) → silent (for_fold l body acc).
Proof.
  intros Hbody. revert acc. induction l as [|x l IH]; intros acc; simpl.
  - apply silent_ret.
  - apply silent_bind; [apply Hbody | exact IH].
Qed.

Lemma silent_process_file ri rm file rows :
  silent (process_file ri rm false file rows).
Proof.
  unfold process_file, when.
  apply silent_bind; [apply silent_ret | intros _].
  apply silent_bind; [apply silent_get_root | intros r].
  apply silent_bind; [apply silent_lift | intros rel0].
  apply silent_bind; [apply silent_lift | intros [row keep]].
  apply silent_bind; [apply silent_ret | intros _]. apply silent_ret.
Qed.

Lemma silent_process_folder q ri rm folder rows :
  silent (process_folder q ri rm false folder rows).
Proof.
  unfold process_folder, when.
  apply silent_bind; [apply silent_ret | intros _].
  apply silent_bind.
  - apply silent_for_fold. intros. apply silent_process_file.
  - intros rows'. destruct (rglob folder q).2; [apply silent_raise | apply silent_ret].
Qed.

(** X8: a query without [verbose] prints nothing and changes nothing,
    whether it returns or raises: the world after it is the world before. *)
Theorem query_silent_leaves_world q regex_info require_match w :
  after (query q regex_info require_match false) w = w.
Proof.
  unfold after. revert w.
  change (silent (query q regex_info require_match false)).
  unfold query, collect_rows, when.
  apply silent_bind.
  - apply silent_bind; [apply silent_ret | intros _].
    apply silent_bind; [apply silent_get_folders | intros fs].
    apply silent_for_fold. intros. apply silent_process_folder.
  - intros [|row rows]; [|apply silent_ret].
    apply silent_bind; [apply silent_ret | intros _]. apply silent_ret.
Qed.

(** ** The rows a search returns *)

Lemma run_bind_inv {A B} (m : M A) (f : A → M B) w b w' :
  (m ≫= f) w = (Ret b, w') →
  ∃ a w1, m w = (Ret a, w1) ∧ f a w1 = (Ret b, w').
Proof.
  rewrite run_bind. destruct (m w) as [[a|e] w1]; [|done].
  intros E. by exists a, w1.
Qed.

Lemma process_file_ret ri rm v file rows w rows' w' :
  process_file ri rm v file rows w = (Ret rows', w') →
  ∃ r o, root (self w) = Some r ∧ file_outcome ri rm r file o ∧
         rows' = rows ++ option_list o.
Proof.
  unfold process_file. intros Hrun.
  apply run_bind_inv in Hrun as ([] & w1 & Hpre & Hrun).
  assert (self w1 = self w) as Hself.
  { assert (keeps_self (when v (r ← get_root;
                                 rel ← lift (relative_to_root file r);
                                 print (FoundFile rel)))) as Hk.
    { apply keeps_self_when. apply keeps_self_bind; [apply keeps_self_get_root|].
      intros r. apply keeps_self_bind; [apply keeps_self_lift|].
      intros rel0. apply keeps_self_print. }
    specialize (Hk w). by rewrite Hpre in Hk. }
  apply run_bind_inv in Hrun as (r & w2 & Hroot & Hrun).
  unfold get_root in Hroot. rewrite Hself in Hroot.
  destruct (root (self w)) as [r0|] eqn:Er; [|done].
  injection Hroot as -> ->.
  apply run_bind_inv in Hrun as (rel0 & w3 & Hrel & Hrun).
  unfold lift in Hrel. injection Hrel as Hrel ->.
  apply run_bind_inv in Hrun as ([row keep] & w4 & Hmatch & Hrun).
  unfold lift in Hmatch. injection Hmatch as Hmatch ->.
  apply run_bind_inv in Hrun as ([] & w5 & _ & Hrun).
  injection Hrun as <- _.
  exists r, (if keep then Some row else None). split; [reflexivity|]. split.
  - by exists rel0, row, keep.
  - destruct keep; simpl; [reflexivity | by rewrite app_nil_r].
Qed.

Lemma for_fold_files_ret ri rm v files rows w rows' w' :
  for_fold files (process_file ri rm v) rows w = (Ret rows', w') →
  ∃ os, Forall2 (λ file o, ∃ r, root (self w) = Some r ∧
                             file_outcome ri rm r file o) files os ∧
        rows' = rows ++ omap id os.
Proof.
  revert rows w. induction files as [|file files IH]; intros rows w Hrun.
  - injection Hrun as <- _. exists []. split; [constructor | by rewrite app_nil_r].
  - simpl in Hrun. apply run_bind_inv in Hrun as (rows1 & w1 & Hfile & Hrun).
    pose proof (keeps_self_process_file ri rm v file rows w) as Hself.
    rewrite Hfile in Hself. simpl in Hself.
    apply process_file_ret in Hfile as (r & o & Hr & Ho & ->).
    apply IH in Hrun as (os & Hos & ->). rewrite Hself in Hos.
    exists (o :: os). split.
    + constructor; [by exists r | exact Hos].
    + rewrite <- app_assoc. by destruct o.
Qed.

Lemma process_folder_ret q ri rm v folder rows w rows' w' :
  process_folder q ri rm v folder rows w = (Ret rows', w') →
  ∃ os, Forall2 (λ file o, ∃ r, root (self w) = Some r ∧
                             file_outcome ri rm r file o)
                (rglob folder q).1 os ∧
        rows' = rows ++ omap id os.
Proof.
  unfold process_folder. intros Hrun.
  apply run_bind_inv in Hrun as ([] & w1 & Hpre & Hrun).
  assert (self w1 = self w) as Hself.
  { assert (keeps_self (when v (r ← get_root;
                                 rel ← lift (relative_to_root folder r);
                                 print (EnteringFolder rel)))) as Hk.
    { apply keeps_self_when. apply keeps_self_bind; [apply keeps_self_get_root|].
      intros r. apply keeps_self_bind; [apply keeps_self_lift|].
      intros rel0. apply keeps_self_print. }
    specialize (Hk w). by rewrite Hpre in Hk. }
  apply run_bind_inv in Hrun as (rows1 & w2 & Hfiles & Hrun).
  apply for_fold_files_ret in Hfiles as (os & Hos & ->).
  rewrite Hself in Hos.
  destruct (rglob folder q).2; [done|]. injection Hrun as <- _.
  by exists os.
Qed.

Lemma for_fold_folders_ret q ri rm v fs rows w rows' w' :
  for_fold fs (process_folder q ri rm v) rows w = (Ret rows', w') →
  ∃ os, Forall2 (λ file o, ∃ r, root (self w) = Some r ∧
                             file_outcome ri rm r file o)
                (all_files q fs) os ∧
        rows' = rows ++ omap id os.
Proof.
  revert rows w. induction fs as [|f fs IH]; intros rows w Hrun.
  - injection Hrun as <- _. exists []. split; [constructor | by rewrite app_nil_r].
  - simpl in Hrun. apply run_bind_inv in Hrun as (rows1 & w1 & Hfolder & Hrun).
    pose proof (keeps_self_process_folder q ri rm v f rows w) as Hself.
    rewrite Hfolder in Hself. simpl in Hself.
    apply process_folder_ret in Hfolder as (os1 & Hos1 & ->).
    apply IH in Hrun as (os2 & Hos2 & ->). rewrite Hself in Hos2.
    exists (os1 ++ os2). split.
    + unfold all_files. csimpl. by apply Forall2_app.
    + by rewrite omap_app, app_assoc.
Qed.

(** The rows a search returns are, in the order the files are met, the rows
    of the files it keeps. *)
Lemma collect_rows_ret q ri rm v w rows w' :
  collect_rows q ri rm v w = (Ret rows, w') →
  ∃ os, Forall2 (λ file o, ∃ r, root (self w) = Some r ∧
                             file_outcome ri rm r file o)
                (all_files q (folders (self w))) os ∧
        rows = omap id os.
Proof.
  unfold collect_rows. intros Hrun.
  apply run_bind_inv in Hrun as ([] & w1 & Hpre & Hrun).
  assert (self w1 = self w) as Hself.
  { assert (keeps_self (when v (print (Searching q) ;;
                                 r ← get_root; print (InRootFolder r)))) as Hk.
    { apply keeps_self_when. apply keeps_self_bind; [apply keeps_self_print|].
      intros _. apply keeps_self_bind; [apply keeps_self_get_root|].
      intros r. apply keeps_self_print. }
    specialize (Hk w). by rewrite Hpre in Hk. }
  apply run_bind_inv in Hrun as (fs & w2 & Hfs & Hrun).
  injection Hfs as <- <-.
  apply for_fold_folders_ret in Hrun as (os & Hos & ->).
  rewrite Hself in Hos. by exists os.
Qed.

Lemma Forall_gather {A} (P : A → Prop) idx (l : list A) :
  Forall P l → Forall P (gather idx l).
Proof.
  intros Hl. unfold gather. induction idx as [|i idx IH]; csimpl; [constructor|].
  destruct (l !! i) as [x|] eqn:E; [|exact IH].
  constructor; [|exact IH]. exact (Forall_lookup_1 P l i x Hl E).
Qed.

(** The rows of a returned table are among the rows the search kept. *)
Lemma query_ret q ri rm v w df w' :
  query q ri rm v w = (Ret df, w') →
  ∃ rows w1, collect_rows q ri rm v w = (Ret rows, w1) ∧
             (rows = [] → records df = []) ∧
             (rows ≠ [] →
              records df = gather (argsort (filename_key <$> rows)) rows).
Proof.
  unfold query. intros Hrun.
  apply run_bind_inv in Hrun as (rows & w1 & Hrows & Hrun).
  exists rows, w1. split; [exact Hrows|].
  destruct rows as [|r rs].
  - apply run_bind_inv in Hrun as ([] & w2 & _ & Hrun).
    injection Hrun as <- _. by split.
  - injection Hrun as <- _. by split.
Qed.

(** *** Without [require_match] *)

Lemma match_file_false_keeps ri rel row row' keep :
  match_file ri false rel row = Ret (row', keep) → keep = true.
Proof.
  unfold match_file. destruct (regex_info_mod ri _) as [m|e]; simpl; [|done].
  rewrite walk_require_match.
  destruct (walk m false 0 _ (row, true)) as [[row1 k1]|e]; [|done].
  simpl. by intros [= _ <-].
Qed.

(** X9: a query that does not require a match and returns, returns one
    row for every file the glob yields, folder by folder: no file is
    discarded, and a folder registered twice gives each of its files twice. *)
Theorem query_without_requirement_keeps_every_file q regex_info verbose w df w' :
  argsort_sorts →
  query q regex_info false verbose w = (Ret df, w') →
  length (records df) = length (all_files q (folders (self w))).
Proof.
  intros Hsort Hrun.
  apply query_ret in Hrun as (rows & w1 & Hrows & Hnil & Hcons).
  apply collect_rows_ret in Hrows as (os & Hos & ->).
  assert (length (omap id os) = length (all_files q (folders (self w)))) as Hlen.
  { clear Hnil Hcons. induction Hos as [|file o files os Ho _ IH]; [reflexivity|].
    destruct Ho as (r & _ & rel0 & row & keep & _ & Hmatch & ->).
    apply match_file_false_keeps in Hmatch as ->. csimpl. by rewrite IH. }
  destruct (omap id os) as [|r rs] eqn:E.
  - by rewrite Hnil, <- Hlen.
  - rewrite Hcons by done. rewrite <- Hlen.
    destruct (Hsort (filename_key <$> r :: rs)) as [Hperm _].
    rewrite length_fmap in Hperm.
    by rewrite (gather_permutation _ _ Hperm).
Qed.

(** *** The fields of a row *)

Lemma dict_set_keys k v d : d.*1 `prefix_of` (dict_set k v d).*1.
Proof.
  induction d as [|[k' u] d IH]; simpl; [apply prefix_nil|].
  case_bool_decide as E; simpl.
  - by rewrite E.
  - by apply prefix_cons.
Qed.

Lemma dict_update_keys d items : d.*1 `prefix_of` (dict_update d items).*1.
Proof.
  unfold dict_update. revert d.
  induction items as [|[k v] items IH]; intros d; simpl; [done|].
  etrans; [apply (dict_set_keys k v) | apply IH].
Qed.

Lemma classify_keys labels part row row' :
  classify labels part row = Ret row' → row.*1 `prefix_of` row'.*1.
Proof.
  revert row. induction labels as [|[key regex] rest IH]; intros row; simpl.
  - by intros [= ->].
  - destruct (re_match regex part); [done | apply IH |].
    intros Hrest. etrans; [apply (dict_set_keys "info") | by apply IH].
Qed.

Lemma at_position_keys m rm i part row keep row' keep' :
  at_position m rm i part (row, keep) = Ret (row', keep') →
  row.*1 `prefix_of` row'.*1.
Proof.
  unfold at_position. destruct (m !! i) as [[regex|labels]|]; simpl.
  - destruct (re_match regex part) as [| |gd]; [done | by intros [= -> _] |].
    intros [= <- _]. apply dict_update_keys.
  - destruct (classify labels part row) as [row1|e] eqn:E; simpl; [|done].
    intros [= <- _]. by apply classify_keys in E.
  - by intros [= -> _].
Qed.

Lemma walk_keys m rm i rparts row keep row' keep' :
  walk m rm i rparts (row, keep) = Ret (row', keep') →
  row.*1 `prefix_of` row'.*1.
Proof.
  revert i row keep. induction rparts as [|part rest IH]; intros i row keep; simpl.
  - by intros [= -> _].
  - destruct (at_position m rm i part (row, keep)) as [[row1 keep1]|e] eqn:E;
      simpl; [|done].
    intros Hrest. etrans; [by eapply at_position_keys | by eapply IH].
Qed.

Lemma match_file_keys ri rm rel row row' keep :
  match_file ri rm rel row = Ret (row', keep) → row.*1 `prefix_of` row'.*1.
Proof.
  unfold match_file. destruct (regex_info_mod ri _) as [m|e]; simpl; [|done].
  apply walk_keys.
Qed.

(** X13: every row of a table that [query] returns has the keys
    [filename], [path] and [suffix], and has them first, in this order:
    patterns and classifiers only add keys behind them or replace values. *)
Theorem query_rows_start_with_base_keys q regex_info require_match verbose
    w df w' :
  query q regex_info require_match verbose w = (Ret df, w') →
  Forall (λ row : Row, base_keys `prefix_of` row.*1) (records df).
Proof.
  intros Hrun.
  apply query_ret in Hrun as (rows & w1 & Hrows & Hnil & Hcons).
  apply collect_rows_ret in Hrows as (os & Hos & ->).
  assert (Forall (λ row : Row, base_keys `prefix_of` row.*1) (omap id os)) as Hall.
  { clear Hnil Hcons. induction Hos as [|file o files os Ho _ IH]; [constructor|].
    destruct Ho as (r & _ & rel0 & row & keep & _ & Hmatch & ->).
    destruct keep; csimpl; [|exact IH].
    constructor; [|exact IH]. by apply match_file_keys in Hmatch. }
  destruct (omap id os) as [|r rs] eqn:E.
  - rewrite Hnil by done. constructor.
  - rewrite Hcons by done. by apply Forall_gather.
Qed.

Lemma dict_get_set_eq k v d : dict_get k (dict_set k v d) = Some v.
Proof.
  induction d as [|[k' u] d IH]; simpl.
  - by rewrite bool_decide_eq_true_2.
  - case_bool_decide as E; simpl.
    + by rewrite bool_decide_eq_true_2.
    + by rewrite bool_decide_eq_false_2.
Qed.

Lemma dict_get_set_ne k k' v d :
  k ≠ k' → dict_get k' (dict_set k v d) = dict_get k' d.
Proof.
  intros Hne. induction d as [|[k0 u] d IH]; simpl.
  - by rewrite bool_decide_eq_false_2.
  - case_bool_decide as E; simpl.
    + subst k0. by rewrite !bool_decide_eq_false_2.
    + by rewrite IH.
Qed.

Lemma dict_get_update_notin k d (items : Row) :
  k ∉ items.*1 → dict_get k (dict_update d items) = dict_get k d.
Proof.
  unfold dict_update. revert d.
  induction items as [|[k0 v0] items IH]; intros d Hk; simpl; [reflexivity|].
  csimpl in Hk. apply not_elem_of_cons in Hk as [Hne Hk].
  rewrite IH by done. by apply dict_get_set_ne.
Qed.

Lemma dict_get_update_in k v d (items : Row) :
  NoDup items.*1 → (k, v) ∈ items →
  dict_get k (dict_update d items) = Some v.
Proof.
  unfold dict_update. revert d.
  induction items as [|[k0 v0] items IH]; intros d Hnd Hin; simpl.
  - by apply elem_of_nil in Hin.
  - csimpl in Hnd. apply NoDup_cons in Hnd as [Hk0 Hnd].
    apply elem_of_cons in Hin as [[= -> ->]|Hin].
    + fold (dict_update (dict_set k0 v0 d) items).
      rewrite dict_get_update_notin by done. apply dict_get_set_eq.
    + by apply IH.
Qed.

(** X14: where a single pattern matches, the row afterwards holds, for
    every named group, the text the group captured ([None] for a group that
    took no part), whatever the row held under that name before, the base
    fields included; every other field is as it was, and so is [keep]. *)
Theorem named_groups_overwrite_fields m require_match i part row keep regex gd :
  m !! i = Some (Pattern regex) →
  re_match regex part = Matched gd →
  NoDup gd.*1 →
  ∃ row', at_position m require_match i part (row, keep) = Ret (row', keep) ∧
          (∀ g v, (g, v) ∈ gd → dict_get g row' = Some (group_value v)) ∧
          (∀ k, k ∉ gd.*1 → dict_get k row' = dict_get k row).
Proof.
  intros Hm Hre Hnd. unfold at_position. rewrite Hm, Hre. simpl.
  eexists. split; [reflexivity|].
  assert ((groupdict_items gd).*1 = gd.*1) as Hkeys.
  { unfold groupdict_items. rewrite <- list_fmap_compose. by apply list_fmap_ext. }
  split.
  - intros g v Hin. apply dict_get_update_in; [by rewrite Hkeys|].
    unfold groupdict_items.
    apply (list_elem_of_fmap_2 (λ kv, (kv.1, group_value kv.2)) gd (g, v) Hin).
  - intros k Hk. apply dict_get_update_notin. by rewrite Hkeys.
Qed.

(** *** The effective map *)

(** X10: the effective map of a path with [n] segments has keys in
    [0 .. n-1] only, and every key of [regex_info], however large or
    negative, is found in it at its residue: no entry is out of range, each
    one lands on a segment of every file. *)
Theorem effective_keys_in_range regex_info n m :
  regex_info_mod regex_info n = Ret m →
  (∀ k e, m !! k = Some e → 0 ≤ k < Z.of_nat n) ∧
  (∀ i e, (i, e) ∈ regex_info → is_Some (m !! (i `mod` Z.of_nat n))).
Proof.
  intros Hm. destruct n as [|n'].
  - destruct regex_info as [|[i e] rest]; [|done].
    injection Hm as <-. split.
    + intros k e. by rewrite lookup_empty.
    + intros i e Hin. by apply elem_of_nil in Hin.
  - destruct (regex_info_mod_lookup regex_info (S n')) as (m' & Em & Hlook);
      [done|].
    rewrite Em in Hm. injection Hm as ->. split.
    + intros k e. rewrite Hlook. unfold effective_entry.
      destruct (List.find _ (reverse regex_info)) as [x|] eqn:Efind; [|done].
      intros _. apply List.find_some in Efind as [_ Hx].
      apply bool_decide_eq_true_1 in Hx. subst k.
      apply Z.mod_pos_bound. lia.
    + intros i e Hin. rewrite Hlook. unfold effective_entry.
      destruct (List.find _ (reverse regex_info)) as [x|] eqn:Efind; [by eexists|].
      exfalso.
      assert (In (i, e) (reverse regex_info)) as Hin'
        by (apply list_elem_of_In; by apply elem_of_reverse).
      pose proof (List.find_none _ _ Efind (i, e) Hin') as Hno.
      simpl in Hno. by rewrite bool_decide_eq_true_2 in Hno.
Qed.

(** X11: a file whose path under the root has no segment (the root
    itself) is kept as it is when [regex_info] is empty, and makes the query
    raise [ZeroDivisionError] as soon as [regex_info] has an entry. *)
Theorem match_file_no_segments regex_info require_match rel row :
  parts rel = [] →
  match_file regex_info require_match rel row =
    match regex_info with
    | [] => Ret (row, true)
    | _ :: _ => Raise ZeroDivisionError
    end.
Proof.
  intros Hparts. unfold match_file. rewrite Hparts.
  by destruct regex_info as [|[i e] rest].
Qed.

(** *** The default query *)

Lemma walk_empty rm i rparts st : walk ∅ rm i rparts st = Ret st.
Proof.
  revert i st. induction rparts as [|part rest IH]; intros i st; simpl;
    [reflexivity|].
  unfold at_position. rewrite lookup_empty. simpl. apply IH.
Qed.

Lemma match_file_empty rm rel row : match_file [] rm rel row = Ret (row, true).
Proof. unfold match_file. simpl. apply walk_empty. Qed.

Lemma process_file_default rm file rows r w :
  root (self w) = Some (RPath r) → is_relative_to file r = true →
  process_file [] rm false file rows w = (Ret (rows ++ [new_row file]), w).
Proof.
  intros Hr Hunder. unfold process_file.
  rewrite (run_bind_ret _ _ w tt w) by reflexivity.
  rewrite (run_bind_ret _ _ w (RPath r) w) by (unfold get_root; by rewrite Hr).
  rewrite (run_bind_ret _ _ w
             (mkPath false (drop (length (segs r)) (segs file))) w).
  2:{ unfold lift, relative_to_root, relative_to. by rewrite Hunder. }
  unfold lift at 1. rewrite run_bind, match_file_empty. reflexivity.
Qed.

Lemma for_fold_files_default rm files rows r w :
  root (self w) = Some (RPath r) →
  Forall (λ file, is_relative_to file r = true) files →
  for_fold files (process_file [] rm false) rows w
    = (Ret (rows ++ (new_row <$> files)), w).
Proof.
  intros Hr Hfiles. revert rows.
  induction Hfiles as [|file files Hfile _ IH]; intros rows; simpl.
  - by rewrite app_nil_r.
  - rewrite (run_bind_ret _ _ _ _ _ (process_file_default rm file rows r w Hr Hfile)).
    rewrite IH. by rewrite <- app_assoc.
Qed.

Lemma for_fold_folders_default q rm fs rows r w :
  root (self w) = Some (RPath r) →
  Forall (λ f, (rglob f q).2 = None ∧
               Forall (λ file, is_relative_to file r = true) (rglob f q).1) fs →
  for_fold fs (process_folder q [] rm false) rows w
    = (Ret (rows ++ (new_row <$> all_files q fs)), w).
Proof.
  intros Hr Hfs. revert rows.
  induction Hfs as [|f fs [Hend Hfiles] _ IH]; intros rows; simpl.
  - by rewrite app_nil_r.
  - rewrite (run_bind_ret _ _ w (rows ++ (new_row <$> (rglob f q).1)) w).
    2:{ unfold process_folder.
        rewrite (run_bind_ret _ _ w tt w) by reflexivity.
        rewrite (run_bind_ret _ _ _ _ _
                   (for_fold_files_default rm _ rows r w Hr Hfiles)).
        by rewrite Hend. }
    rewrite IH. unfold all_files. csimpl.
    by rewrite fmap_app, app_assoc.
Qed.

(** X12: with the default, empty [regex_info], over a root path under
    which all met files lie and with globs that run to their end, the query
    returns, prints nothing, and its table holds exactly one base row
    ([filename], [path], [suffix]) for every file met, whatever
    [require_match] is. *)
Theorem query_default_lists_every_file q require_match r w :
  argsort_sorts →
  root (self w) = Some (RPath r) →
  Forall (λ f, (rglob f q).2 = None ∧
               Forall (λ file, is_relative_to file r = true) (rglob f q).1)
         (folders (self w)) →
  ∃ df, query q [] require_match false w = (Ret df, w) ∧
        records df ≡ₚ new_row <$> all_files q (folders (self w)).
Proof.
  intros Hsort Hr Hfs. unfold query.
  rewrite (run_bind_ret _ _ w (new_row <$> all_files q (folders (self w))) w).
  2:{ unfold collect_rows.
      rewrite (run_bind_ret _ _ w tt w) by reflexivity.
      rewrite (run_bind_ret _ _ w (folders (self w)) w) by reflexivity.
      by rewrite (for_fold_folders_default q require_match _ [] r w Hr Hfs). }
  destruct (new_row <$> all_files q (folders (self w))) as [|row rows] eqn:E.
  - exists empty_frame. by split.
  - eexists. split; [reflexivity|]. simpl.
    destruct (Hsort (filename_key <$> row :: rows)) as [Hperm _].
    rewrite length_fmap in Hperm.
    by apply gather_permutation.
Qed.

(** *** A root that is a list *)

Lemma process_folder_list_root q ri rm v cs f file files rows w :
  root (self w) = Some (RList cs) →
  (rglob f q).1 = file :: files →
  process_folder q ri rm v f rows w = (Raise TypeError, w).
Proof.
  intros Hr Hfiles.
  assert (get_root w = (Ret (RList cs), w)) as Hroot
    by (unfold get_root; by rewrite Hr).
  unfold process_folder. destruct v.
  - apply run_bind_raise. unfold when.
    by rewrite (run_bind_ret _ _ _ _ _ Hroot).
  - rewrite (run_bind_ret _ _ w tt w) by reflexivity.
    apply run_bind_raise. rewrite Hfiles. simpl.
    apply run_bind_raise. unfold process_file.
    rewrite (run_bind_ret _ _ w tt w) by reflexivity.
    by rewrite (run_bind_ret _ _ _ _ _ Hroot).
Qed.

(** X15: once the stored root is a list (which [set_root] leaves when it
    is given one), a query whose first folder yields a file raises
    [TypeError], with or without [verbose]. *)
Theorem query_list_root_type_error q regex_info require_match verbose
    cs f fs file files w :
  root (self w) = Some (RList cs) →
  folders (self w) = f :: fs →
  (rglob f q).1 = file :: files →
  (query q regex_info require_match verbose w).1 = Raise TypeError.
Proof.
  intros Hr Hfs Hfiles. unfold query, collect_rows.
  assert (∃ w1, (when verbose (print (Searching q) ;;
                               r ← get_root; print (InRootFolder r))) w
                  = (Ret tt, w1) ∧ self w1 = self w) as (w1 & Hpre & Hself).
  { destruct verbose; [|by exists w].
    eexists. split.
    - unfold when. rewrite (run_bind_ret _ _ w tt _) by reflexivity.
      unfold get_root at 1. rewrite run_bind. simpl. rewrite Hr. reflexivity.
    - reflexivity. }
  rewrite <- Hself in Hr, Hfs.
  erewrite run_bind_raise; [reflexivity|].
  rewrite (run_bind_ret _ _ _ _ _ Hpre).
  rewrite (run_bind_ret get_folders _ w1 (f :: fs) w1)
    by (unfold get_folders; by rewrite Hfs).
  simpl. apply run_bind_raise.
  by apply process_folder_list_root with cs file files.
Qed.

(** *** Folders under the root *)

Lemma is_prefix_app l1 l2 : is_prefix l1 (l1 ++ l2) = true.
Proof.
  induction l1 as [|x l1 IH]; simpl; [reflexivity|].
  by rewrite bool_decide_eq_true_2, IH.
Qed.

Lemma truediv_under_root r f :
  is_absolute f = false → is_relative_to (truediv r f) r = true.
Proof.
  unfold is_absolute, truediv, is_relative_to. intros ->. simpl.
  by rewrite bool_decide_eq_true_2, is_prefix_app.
Qed.

Lemma filter_under_root r fs :
  Forall (λ f, is_absolute f = false) fs →
  Forall (λ f, is_relative_to f r = true)
         (List.filter is_dir (truediv r <$> fs)).
Proof.
  induction 1 as [|f fs Hf _ IH]; csimpl; [constructor|].
  destruct (is_dir (truediv r f)); [|exact IH].
  constructor; [by apply truediv_under_root | exact IH].
Qed.

(** X7: for an object constructed over a root path with relative folders
    only, [verbose] has no effect on what a query returns or raises: every
    registered folder lies under the root, so the narration cannot fail. *)
Theorem init_relative_folders_verbose_safe p fs w q regex_info require_match :
  is_dir p = true →
  Forall (λ f, is_absolute f = false) fs →
  (query q regex_info require_match true
     (after (init fs (Some (RPath p))) w)).1
  = (query q regex_info require_match false
       (after (init fs (Some (RPath p))) w)).1.
Proof.
  intros Hp Hfs. unfold after. rewrite (init_run p fs w Hp). simpl.
  apply query_verbose_same_data. exists p. split; [reflexivity|].
  by apply filter_under_root.
Qed.

(** X16: while the stored root is a path, [add_folders] without [strict]
    and without a root argument never raises: it registers, in order, the
    folders whose resolved path is a directory and announces each of the
    others as skipped. *)
Theorem add_folders_lenient_never_raises r fs w :
  root (self w) = Some (RPath r) →
  add_folders fs None false w =
    (Ret tt, registered w (List.filter is_dir (truediv r <$> fs))
               (WarnSkipping <$>
                  List.filter (λ q, negb (is_dir q)) (truediv r <$> fs))).
Proof.
  intros Hr. unfold add_folders.
  rewrite (run_bind_ret _ _ w tt w) by reflexivity.
  apply for_each_skips. by apply resolved_under_path.
Qed.

End MoreFacts.

(** * The further properties on the demo file system *)

Lemma add_folders_all_present_witness :
  Forall2 (λ f p, resolved (root (self (demo_world []))) f = Ret p ∧
                  is_dir (Platform := demo) p = true)
    [rel ["a"]; abs ["data"; "sub"]] [abs ["data"; "a"]; abs ["data"; "sub"]] ∧
  add_folders (H := demo) [rel ["a"]; abs ["data"; "sub"]] None true (demo_world [])
    = (Ret tt, registered (demo_world [])
                 [abs ["data"; "a"]; abs ["data"; "sub"]] []).
Proof.
  assert (Forall2 (λ f p, resolved (root (self (demo_world []))) f = Ret p ∧
                          is_dir (Platform := demo) p = true)
            [rel ["a"]; abs ["data"; "sub"]]
            [abs ["data"; "a"]; abs ["data"; "sub"]]) as Hfs
    by (repeat constructor).
  split; [exact Hfs|].
  exact (add_folders_all_present (H := demo) _ _ true _ Hfs).
Defined.

Lemma init_outcome_witness :
  is_dir (Platform := demo) (abs ["data"]) = true ∧
  init (H := demo) [rel ["a"]; rel ["nope"]] (Some (RPath (abs ["data"]))) new_object
    = (Ret tt,
       mkWorld (mkDataFinder (Some (RPath (abs ["data"])))
                  (List.filter (is_dir (Platform := demo))
                     (truediv (abs ["data"]) <$> [rel ["a"]; rel ["nope"]])))
               (stdout new_object ++ (WarnSkipping <$>
                  List.filter (λ q, negb (is_dir (Platform := demo) q))
                    (truediv (abs ["data"]) <$> [rel ["a"]; rel ["nope"]])))).
Proof.
  assert (is_dir (Platform := demo) (abs ["data"]) = true) as Hp by reflexivity.
  split; [exact Hp|].
  exact (init_outcome (H := demo) _ [rel ["a"]; rel ["nope"]] new_object Hp).
Defined.

(** What the constructor of the witness leaves: one folder, one warning. *)
Example init_outcome_run :
  init (H := demo) [rel ["a"]; rel ["nope"]] (Some (RPath (abs ["data"]))) new_object
    = (Ret tt, mkWorld (mkDataFinder (Some (RPath (abs ["data"])))
                          [abs ["data"; "a"]])
                       [WarnSkipping (abs ["data"; "nope"])]).
Proof. vm_compute. reflexivity. Qed.

Lemma init_list_root_type_error_witness :
  ¬ no_valid_root (H := demo) (RList [abs ["missing"]; abs ["data"]]) ∧
  is_absolute (rel ["sub"]) = false ∧
  init (H := demo) [rel ["sub"]] (Some (RList [abs ["missing"]; abs ["data"]]))
      new_object
    = (Raise TypeError,
       mkWorld (mkDataFinder (Some (RList [abs ["missing"]; abs ["data"]])) [])
               (stdout new_object)).
Proof.
  assert (¬ no_valid_root (H := demo) (RList [abs ["missing"]; abs ["data"]]))
    as Hcs.
  { intros Hall. inversion Hall as [|? ? _ Hrest]. inversion Hrest as [|? ? Hd _].
    vm_compute in Hd. discriminate Hd. }
  assert (is_absolute (rel ["sub"]) = false) as Hf by reflexivity.
  split; [exact Hcs|]. split; [exact Hf|].
  exact (init_list_root_type_error (H := demo) _ _ [] new_object Hcs Hf).
Defined.

Lemma init_relative_folders_verbose_safe_witness :
  is_dir (Platform := demo) (abs ["data"]) = true ∧
  Forall (λ f, is_absolute f = false) [rel ["sub"]] ∧
  (query (H := demo) "*.tif" [(0, Pattern test_regex)] true true
     (after (init (H := demo) [rel ["sub"]] (Some (RPath (abs ["data"]))))
        new_object)).1
  = (query (H := demo) "*.tif" [(0, Pattern test_regex)] true false
       (after (init (H := demo) [rel ["sub"]] (Some (RPath (abs ["data"]))))
          new_object)).1.
Proof.
  assert (is_dir (Platform := demo) (abs ["data"]) = true) as Hp by reflexivity.
  assert (Forall (λ f, is_absolute f = false) [rel ["sub"]]) as Hfs
    by (repeat constructor).
  split; [exact Hp|]. split; [exact Hfs|].
  exact (init_relative_folders_verbose_safe (H := demo) _ _ new_object
           "*.tif" [(0, Pattern test_regex)] true Hp Hfs).
Defined.

Lemma query_without_requirement_keeps_every_file_witness :
  argsort_sorts (H := demo) ∧
  query (H := demo) "*.tif" [(0, Pattern "(?P<condition>XXX)")] false false
      (demo_world [abs ["data"; "sub"]])
    = (Ret (mkDataFrame ["filename"; "path"; "suffix"] [0; 1]%nat
              [new_row demo_file; new_row demo_file2]),
       demo_world [abs ["data"; "sub"]]) ∧
  length (records (mkDataFrame ["filename"; "path"; "suffix"] [0; 1]%nat
                     [new_row demo_file; new_row demo_file2]))
    = length (all_files (H := demo) "*.tif"
                (folders (self (demo_world [abs ["data"; "sub"]])))).
Proof.
  assert (query (H := demo) "*.tif" [(0, Pattern "(?P<condition>XXX)")] false false
            (demo_world [abs ["data"; "sub"]])
          = (Ret (mkDataFrame ["filename"; "path"; "suffix"] [0; 1]%nat
                    [new_row demo_file; new_row demo_file2]),
             demo_world [abs ["data"; "sub"]])) as Hrun
    by (vm_compute; reflexivity).
  split; [exact demo_sorts|]. split; [exact Hrun|].
  exact (query_without_requirement_keeps_every_file (H := demo) _ _ false _ _ _
           demo_sorts Hrun).
Defined.

Lemma effective_keys_in_range_witness :
  regex_info_mod [(3, Pattern "inner"); (-1, Pattern "outer")] 3
    = Ret (<[2 := Pattern "outer"]> (<[0 := Pattern "inner"]> ∅)) ∧
  (∀ k e, (<[2 := Pattern "outer"]> (<[0 := Pattern "inner"]> ∅) : gmap Z Entry) !! k
            = Some e → 0 ≤ k < Z.of_nat 3) ∧
  (∀ i e, (i, e) ∈ [(3, Pattern "inner"); (-1, Pattern "outer")] →
          is_Some ((<[2 := Pattern "outer"]> (<[0 := Pattern "inner"]> ∅)
                      : gmap Z Entry) !! (i `mod` Z.of_nat 3))).
Proof.
  assert (regex_info_mod [(3, Pattern "inner"); (-1, Pattern "outer")] 3
            = Ret (<[2 := Pattern "outer"]> (<[0 := Pattern "inner"]> ∅))) as Hm
    by reflexivity.
  split; [exact Hm|].
  exact (effective_keys_in_range _ _ _ Hm).
Defined.

Lemma match_file_no_segments_witness :
  parts (rel []) = [] ∧
  match_file (H := demo) [(0, Pattern "^A")] true (rel []) (new_row (abs ["data"]))
    = Raise ZeroDivisionError.
Proof.
  assert (parts (rel []) = []) as Hparts by reflexivity.
  split; [exact Hparts|].
  exact (match_file_no_segments (H := demo) [(0, Pattern "^A")] true (rel [])
           (new_row (abs ["data"])) Hparts).
Defined.

Lemma query_default_lists_every_file_witness :
  argsort_sorts (H := demo) ∧
  root (self (demo_world [abs ["data"; "sub"]; abs ["data"; "sub"]]))
    = Some (RPath (abs ["data"])) ∧
  Forall (λ f, (rglob (Platform := demo) f "*.tif").2 = None ∧
               Forall (λ file, is_relative_to file (abs ["data"]) = true)
                      (rglob (Platform := demo) f "*.tif").1)
         (folders (self (demo_world [abs ["data"; "sub"]; abs ["data"; "sub"]]))) ∧
  ∃ df, query (H := demo) "*.tif" [] true false
            (demo_world [abs ["data"; "sub"]; abs ["data"; "sub"]])
          = (Ret df, demo_world [abs ["data"; "sub"]; abs ["data"; "sub"]]) ∧
        records df ≡ₚ
          new_row <$> all_files (H := demo) "*.tif"
            (folders (self (demo_world [abs ["data"; "sub"]; abs ["data"; "sub"]]))).
Proof.
  assert (Forall (λ f, (rglob (Platform := demo) f "*.tif").2 = None ∧
                       Forall (λ file, is_relative_to file (abs ["data"]) = true)
                              (rglob (Platform := demo) f "*.tif").1)
            (folders (self (demo_world [abs ["data"; "sub"]; abs ["data"; "sub"]]))))
    as Hfs by (repeat constructor).
  split; [exact demo_sorts|]. split; [reflexivity|]. split; [exact Hfs|].
  exact (query_default_lists_every_file (H := demo) "*.tif" true (abs ["data"])
           (demo_world [abs ["data"; "sub"]; abs ["data"; "sub"]])
           demo_sorts eq_refl Hfs).
Defined.

Lemma query_rows_start_with_base_keys_witness :
  query (H := demo) "*.tif" [(0, Pattern test_regex)] true false
      (demo_world [abs ["data"; "sub"]])
    = (Ret (mkDataFrame
              ["filename"; "path"; "suffix"; "condition"; "id"; "type"]
              [0; 1]%nat demo_rows),
       demo_world [abs ["data"; "sub"]]) ∧
  Forall (λ row : Row, base_keys `prefix_of` row.*1)
    (records (mkDataFrame
                ["filename"; "path"; "suffix"; "condition"; "id"; "type"]
                [0; 1]%nat demo_rows)).
Proof.
  assert (query (H := demo) "*.tif" [(0, Pattern test_regex)] true false
            (demo_world [abs ["data"; "sub"]])
          = (Ret (mkDataFrame
                    ["filename"; "path"; "suffix"; "condition"; "id"; "type"]
                    [0; 1]%nat demo_rows),
             demo_world [abs ["data"; "sub"]])) as Hrun
    by (vm_compute; reflexivity).
  split; [exact Hrun|].
  exact (query_rows_start_with_base_keys (H := demo) _ _ true false _ _ _ Hrun).
Defined.

Lemma named_groups_overwrite_fields_witness :
  ({[ 0 := Pattern test_regex ]} : gmap Z Entry) !! 0 = Some (Pattern test_regex) ∧
  re_match (Platform := demo) test_regex "ABC123_type.tif"
    = Matched [("condition", Some "ABC"); ("id", Some "123"); ("type", Some "type")] ∧
  NoDup [("condition", Some "ABC"); ("id", Some "123"); ("type", Some "type")].*1 ∧
  ∃ row', at_position (H := demo) {[ 0 := Pattern test_regex ]} true 0
              "ABC123_type.tif" (new_row demo_file, true) = Ret (row', true) ∧
          (∀ g v, (g, v) ∈ [("condition", Some "ABC"); ("id", Some "123");
                            ("type", Some "type")] →
                  dict_get g row' = Some (group_value v)) ∧
          (∀ k, k ∉ [("condition", Some "ABC"); ("id", Some "123");
                     ("type", Some "type")].*1 →
                dict_get k row' = dict_get k (new_row demo_file)).
Proof.
  assert (({[ 0 := Pattern test_regex ]} : gmap Z Entry) !! 0
            = Some (Pattern test_regex)) as Hm by reflexivity.
  assert (re_match (Platform := demo) test_regex "ABC123_type.tif"
            = Matched [("condition", Some "ABC"); ("id", Some "123");
                       ("type", Some "type")]) as Hre by reflexivity.
  assert (NoDup [("condition", Some "ABC"); ("id", Some "123");
                 ("type", Some "type")].*1) as Hnd
    by (refine (bool_decide_unpack _ _); vm_compute; exact I).
  split; [exact Hm|]. split; [exact Hre|]. split; [exact Hnd|].
  exact (named_groups_overwrite_fields (H := demo) _ true 0 _
           (new_row demo_file) true _ _ Hm Hre Hnd).
Defined.

Lemma query_list_root_type_error_witness :
  root (self demo_list_world) = Some (RList [abs ["data"]]) ∧
  folders (self demo_list_world) = abs ["data"; "sub"] :: [] ∧
  (rglob (Platform := demo) (abs ["data"; "sub"]) "*.tif").1
    = demo_file :: [demo_file2] ∧
  (query (H := demo) "*.tif" [] true false demo_list_world).1 = Raise TypeError.
Proof.
  split; [reflexivity|]. split; [reflexivity|]. split; [reflexivity|].
  exact (query_list_root_type_error (H := demo) "*.tif" [] true false
           [abs ["data"]] (abs ["data"; "sub"]) [] demo_file [demo_file2]
           demo_list_world eq_refl eq_refl eq_refl).
Defined.

(** The list root of [demo_list_world] is what [set_root] leaves there. *)
Example set_root_list_then_query :
  set_root (H := demo) (RList [abs ["data"]]) (demo_world [abs ["data"; "sub"]])
    = (Ret tt, demo_list_world).
Proof. vm_compute. reflexivity. Qed.

Lemma add_folders_lenient_never_raises_witness :
  root (self (demo_world [abs ["data"; "sub"]])) = Some (RPath (abs ["data"])) ∧
  add_folders (H := demo) [rel ["nope"]; abs ["other"]; rel ["a"]] None false
      (demo_world [abs ["data"; "sub"]])
    = (Ret tt,
       registered (demo_world [abs ["data"; "sub"]])
         (List.filter (is_dir (Platform := demo))
            (truediv (abs ["data"]) <$> [rel ["nope"]; abs ["other"]; rel ["a"]]))
         (WarnSkipping <$>
            List.filter (λ q, negb (is_dir (Platform := demo) q))
              (truediv (abs ["data"]) <$> [rel ["nope"]; abs ["other"]; rel ["a"]]))).
Proof.
  split; [reflexivity|].
  exact (add_folders_lenient_never_raises (H := demo) (abs ["data"])
           [rel ["nope"]; abs ["other"]; rel ["a"]]
           (demo_world [abs ["data"; "sub"]]) eq_refl).
Defined.

(** The run of the witness: the absolute folder is taken as it is. *)
Example add_folders_lenient_run :
  add_folders (H := demo) [rel ["nope"]; abs ["other"]; rel ["a"]] None false
      (demo_world [abs ["data"; "sub"]])
    = (Ret tt, mkWorld (mkDataFinder (Some (RPath (abs ["data"])))
                          [abs ["data"; "sub"]; abs ["other"]; abs ["data"; "a"]])
                       [WarnSkipping (abs ["data"; "nope"])]).
Proof. vm_compute. reflexivity. Qed.

(** * Queries that keep no row *)

Section ZeroRows.

Context `{Platform}.

Lemma process_file_discarded ri rm file rows r w :
  root (self w) = Some r →
  file_outcome ri rm r file None →
  process_file ri rm false file rows w = (Ret rows, w).
Proof.
  intros Hr (rel0 & row & keep & Hrel & Hmatch & Ho).
  destruct keep; [done|]. unfold process_file.
  rewrite (run_bind_ret _ _ w tt w) by reflexivity.
  rewrite (run_bind_ret _ _ w r w) by (unfold get_root; by rewrite Hr).
  rewrite (run_bind_ret _ _ w rel0 w) by (unfold lift; by rewrite Hrel).
  rewrite (run_bind_ret _ _ w (row, false) w) by (unfold lift; by rewrite Hmatch).
  reflexivity.
Qed.

Lemma for_fold_files_discarded ri rm files rows r w :
  root (self w) = Some r →
  Forall (λ file, file_outcome ri rm r file None) files →
  for_fold files (process_file ri rm false) rows w = (Ret rows, w).
Proof.
  intros Hr. induction 1 as [|file files Hfile _ IH]; simpl; [reflexivity|].
  by rewrite (run_bind_ret _ _ _ _ _
                (process_file_discarded ri rm file rows r w Hr Hfile)).
Qed.

Lemma for_fold_folders_discarded q ri rm fs rows r w :
  root (self w) = Some r →
  Forall (λ f, (rglob f q).2 = None ∧
               Forall (λ file, file_outcome ri rm r file None) (rglob f q).1) fs →
  for_fold fs (process_folder q ri rm false) rows w = (Ret rows, w).
Proof.
  intros Hr. induction 1 as [|f fs [Hend Hfiles] _ IH]; simpl; [reflexivity|].
  rewrite (run_bind_ret _ _ w rows w); [exact IH|].
  unfold process_folder.
  rewrite (run_bind_ret _ _ w tt w) by reflexivity.
  rewrite (run_bind_ret _ _ _ _ _
             (for_fold_files_discarded ri rm _ rows r w Hr Hfiles)).
  by rewrite Hend.
Qed.

(** Without [verbose]: when every glob runs to its end and every file met
    is processed without an exception and discarded (no file met is the
    least case), the query returns the table without columns and leaves the
    world as it was. *)
Lemma query_all_discarded q ri rm r w :
  root (self w) = Some r →
  Forall (λ f, (rglob f q).2 = None ∧
               Forall (λ file, file_outcome ri rm r file None) (rglob f q).1)
         (folders (self w)) →
  query q ri rm false w = (Ret empty_frame, w).
Proof.
  intros Hr Hfs. unfold query.
  rewrite (run_bind_ret _ _ w [] w); [reflexivity|].
  unfold collect_rows.
  rewrite (run_bind_ret _ _ w tt w) by reflexivity.
  rewrite (run_bind_ret _ _ w (folders (self w)) w) by reflexivity.
  by apply for_fold_folders_discarded with r.
Qed.

(** With or without [verbose], once the narration cannot fail (the root is
    a path and, under [verbose], every registered folder lies under it):
    zero kept rows give the table without columns, and no exception. *)
Lemma query_zero_rows_empty q ri rm verbose r w :
  root (self w) = Some (RPath r) →
  (verbose = false ∨
   Forall (λ f, is_relative_to f r = true) (folders (self w))) →
  Forall (λ f, (rglob f q).2 = None ∧
               Forall (λ file, file_outcome ri rm (RPath r) file None)
                      (rglob f q).1)
         (folders (self w)) →
  (query q ri rm verbose w).1 = Ret empty_frame.
Proof.
  intros Hr Hnarr Hfs.
  assert ((query q ri rm false w).1 = Ret empty_frame) as Hsilent
    by by rewrite (query_all_discarded q ri rm (RPath r) w Hr Hfs).
  destruct verbose; [|exact Hsilent].
  destruct Hnarr as [|Hunder]; [done|].
  rewrite query_verbose_same_data; [exact Hsilent|].
  by exists r.
Qed.

End ZeroRows.

(** On the demo: both files of [/data/sub] are discarded under
    [require_match], and the narrated query returns the empty table too,
    the folder lying under the root. *)
Example query_zero_rows_under_root :
  (query (H := demo) "*.tif" [(0, Pattern "(?P<condition>XXX)")] true true
     (demo_world [abs ["data"; "sub"]])).1 = Ret empty_frame.
Proof.
  apply (query_zero_rows_empty (H := demo) _ _ true true (abs ["data"])).
  - reflexivity.
  - right. repeat constructor.
  - repeat constructor.
    + exists (rel ["sub"; "ABC123_type.tif"]), (new_row demo_file), false.
      repeat split.
    + exists (rel ["sub"; "DEF456_other.tif"]), (new_row demo_file2), false.
      repeat split.
Qed.

(** C5: the pattern [*.tif] matches no file under the registered folder
    [/other], so no row is kept.  Without [verbose] the query returns the
    table without columns; with [verbose] the same call raises [ValueError]
    instead ([/other] lies outside the root [/data], and the narration of
    the folder fails before the search starts). *)
Theorem zero_matches_verbose_query_raises :
  all_files (H := demo) "*.tif" (folders (self (demo_world [abs ["other"]]))) = [] ∧
  query (H := demo) "*.tif" [] true false (demo_world [abs ["other"]])
    = (Ret empty_frame, demo_world [abs ["other"]]) ∧
  (query (H := demo) "*.tif" [] true true (demo_world [abs ["other"]])).1
    = Raise ValueError ∧
  Raise ValueError ≠ Ret empty_frame.
Proof. repeat split; try (vm_compute; reflexivity). discriminate. Qed.
